(** * Finanzas_app: the ledger store of [main.py]

    A shallow embedding of [GestorFinanzas] and of the few Python library
    functions it calls, followed by the properties of the store.

    Conventions of the embedding.
    - [str] is [string]; a character is read as a code point below 256, so
      the white space of [str.strip] is the part of Python's set that lies
      below 256, and [<] on [str] is the order of [String.compare]. Every
      such [str] encodes as UTF-8. [Module Ancho] has the part of the store
      that writes once more, over every [str], lone surrogates included,
      where the write of the file can fail.
    - [float] is the kernel's binary64 [float]; [monto <= 0], [+] and [-]
      are the IEEE operations, [round(x, 2)] and the two ways CPython has
      of computing [sum] are written out in [Module Py].
    - [Movimiento] instances and [list] objects live in a heap and are named
      by references, because [listar] hands the caller the very instances
      the store holds.
    - A file holds the text of a JSON document, or bytes that are not such
      a text: the UTF-8 decoding of the bytes is written out, the text
      codec of the [json] module itself is not part of the program and is
      taken to be faithful ([json.load] reads back what [json.dump]
      wrote). A JSON number written without fraction or exponent is an
      [int]; the embedding follows a load as long as [monto] is the
      [float] it is annotated as, which is what the command line and the
      files the program writes give.
    - [main] is taken from the arguments [parse_args] returns; what it
      prints is kept line by line, as code points. *)

From Stdlib Require Import ZArith Floats Ascii String.
From stdpp Require Import base strings list sorting gmap.

Set Default Proof Using "Type".
Set Warnings "-inexact-float,-abstract-large-number,-register-all".

(** ** The Python library functions the program uses *)

Module Py.

(** [str.isspace] on one code point below 256. *)
Definition isspace (c : ascii) : bool :=
  let n := N_of_ascii c in
  ((9 <=? n) && (n <=? 13) || (28 <=? n) && (n <=? 31)
   || (n =? 32) || (n =? 133) || (n =? 160))%N.

Fixpoint lstrip (s : string) : string :=
  match s with
  | EmptyString => EmptyString
  | String c r => if isspace c then lstrip r else s
  end.

Fixpoint rstrip (s : string) : string :=
  match s with
  | EmptyString => EmptyString
  | String c r =>
      match rstrip r with
      | EmptyString => if isspace c then EmptyString else String c EmptyString
      | r' => String c r'
      end
  end.

(** [s.strip()] *)
Definition strip (s : string) : string := rstrip (lstrip s).

(** [a or b] on [str]: the empty string is the only falsy one. *)
Definition str_or (a b : string) : string :=
  if decide (a = "") then b else a.

(** *** [datetime.date] and [isoformat] *)

Record date := { year : N; month : N; day : N }.

Definition digito (n : N) : ascii := ascii_of_N (48 + n mod 10).

Fixpoint decimal_aux (fuel : nat) (n : N) (acc : string) : string :=
  match fuel with
  | 0 => acc
  | S fuel' =>
      let acc' := String (digito n) acc in
      if (n <? 10)%N then acc' else decimal_aux fuel' (n / 10) acc'
  end.

(** [str(n)] for a natural number; it has no more decimal digits than
    binary ones. *)
Definition decimal (n : N) : string := decimal_aux (S (N.size_nat n)) n "".

Fixpoint ceros (k : nat) (s : string) : string :=
  match k with
  | 0 => s
  | S k' => String "0" (ceros k' s)
  end.

(** ["%0<ancho>d" % n] *)
Definition formato_d (ancho : nat) (n : N) : string :=
  let s := decimal n in ceros (ancho - String.length s) s.

(** [d.isoformat()], that is ["%04d-%02d-%02d" % (year, month, day)]. *)
Definition isoformat (d : date) : string :=
  formato_d 4 (year d) +:+ "-" +:+ formato_d 2 (month d) +:+ "-"
  +:+ formato_d 2 (day d).

(** The invariant of every [datetime.date]. *)
Definition date_ok (d : date) : Prop :=
  (1 ≤ year d ≤ 9999 ∧ 1 ≤ month d ≤ 12 ∧ 1 ≤ day d ≤ 31)%N.

(** *** [float]: [sum] and [round(x, 2)] *)

(** [sum(xs)] on floats, as CPython up to 3.11 computes it: the items are
    added to the start value 0 from left to right. *)
Definition sum (xs : list float) : float :=
  fold_left PrimFloat.add xs 0%float.

(** One turn of the loop CPython 3.12 and later run on floats (Neumaier):
    beside the running sum [f] goes a compensation [c], which takes up
    what the addition [f + x] lost. *)
Definition compensar (fc : float * float) (x : float) : float * float :=
  let t := (fc.1 + x)%float in
  (t,
   if (abs x <=? abs fc.1)%float
   then (fc.2 + ((fc.1 - t) + x))%float
   else (fc.2 + ((x - t) + fc.1))%float).

(** [sum(xs)] on floats, as CPython 3.12 and later compute it: the first
    item is added to the start value 0, the others go through [compensar],
    and the compensation is added at the end unless it is zero or not
    finite. *)
Definition sum_compensada (xs : list float) : float :=
  match xs with
  | [] => 0%float
  | x :: xs' =>
      let fc := fold_left compensar xs' ((0 + x)%float, 0%float) in
      if negb (fc.2 =? 0)%float && is_finite fc.2
      then (fc.1 + fc.2)%float
      else fc.1
  end.

(** The integer nearest to [num / den], ties to the even one
    ([0 <= num], [0 < den]). *)
Definition div_half_even (num den : Z) : Z :=
  let q := (num / den)%Z in
  match (2 * (num mod den) ?= den)%Z with
  | Lt => q
  | Gt => (q + 1)%Z
  | Eq => if Z.even q then q else (q + 1)%Z
  end.

(** The integer nearest to [100 * m * 2^e], ties to even. *)
Definition centesimas (m : positive) (e : Z) : Z :=
  match e with
  | Zneg p => div_half_even (Zpos m * 100) (Z.pow_pos 2 p)
  | _ => (Zpos m * 100 * 2 ^ e)%Z
  end.

(** The binary64 number nearest to [n / 100], with sign [s]. *)
Definition de_centesimas (s : bool) (n : Z) : float :=
  match n with
  | Zpos p =>
      SF2Prim (SFdiv prec emax (S754_finite s p 0) (S754_finite false 100 0))
  | _ => SF2Prim (S754_zero s)
  end.

(** [round(x, 2)]: the exact value of [x] is rounded to two decimals, ties
    to even, and the nearest binary64 number to that decimal is returned;
    zeros, infinities and NaN round to themselves. *)
Definition round2 (x : float) : float :=
  match Prim2SF x with
  | S754_finite s m e => de_centesimas s (centesimas m e)
  | _ => x
  end.

(** *** [dict] with [str] keys, in insertion order *)

Section Dict.
Context {V : Type}.

Fixpoint dict_get (d : list (string * V)) (k : string) : option V :=
  match d with
  | [] => None
  | (k', v) :: d' => if decide (k' = k) then Some v else dict_get d' k
  end.

(** [d[k] = v]: the value is replaced in place, a new key goes last. *)
Fixpoint dict_set (d : list (string * V)) (k : string) (v : V)
  : list (string * V) :=
  match d with
  | [] => [(k, v)]
  | (k', v') :: d' =>
      if decide (k' = k) then (k, v) :: d' else (k', v') :: dict_set d' k v
  end.
End Dict.

(** *** [sorted] on [(str, float)] pairs *)

(** [a < b] on tuples: the first components that differ decide. *)
Definition tuple_lt (a b : string * float) : bool :=
  if decide (a.1 = b.1)
  then (if (a.2 =? b.2)%float then false else (a.2 <? b.2)%float)
  else String.ltb a.1 b.1.

(** Stable insertion: [x] goes before the first element that is greater. *)
Fixpoint insertar (x : string * float) (l : list (string * float))
  : list (string * float) :=
  match l with
  | [] => [x]
  | y :: l' => if tuple_lt x y then x :: y :: l' else y :: insertar x l'
  end.

(** [sorted(l)], as a stable insertion sort that only uses [<]. *)
Definition sorted (l : list (string * float)) : list (string * float) :=
  fold_left (λ acc x, insertar x acc) l [].

(** *** Parsed JSON documents *)

(** A number written with a fraction or an exponent (and [NaN],
    [Infinity]) is a [float], [JNum]; one written without is an [int],
    [JInt]. *)
Inductive json :=
| JNull
| JBool (b : bool)
| JNum (x : float)
| JInt (n : Z)
| JStr (s : string)
| JArr (items : list json)
| JObj (pares : list (string * json)).

(** [for item in data]: a list yields its items, a dict its keys, a string
    its characters; nothing else is iterable. *)
Definition iter (data : json) : option (list json) :=
  match data with
  | JArr l => Some l
  | JObj kv => Some (map (λ p, JStr p.1) kv)
  | JStr s => Some (map (λ c, JStr (String c "")) (String.list_ascii_of_string s))
  | _ => None
  end.

End Py.

(** ** Data of the program *)

(** [@dataclass class Movimiento] *)
Record Movimiento := {
  tipo : string;
  monto : float;
  categoria : string;
  descripcion : string;
  fecha : string
}.

(** The field names, in declaration order. *)
Definition CAMPOS : list string :=
  ["tipo"; "monto"; "categoria"; "descripcion"; "fecha"].

(** [{"ingreso", "gasto"}] *)
Definition TIPOS : gset string := {["ingreso"; "gasto"]}.

Definition MSG_TIPO : string := "El tipo debe ser 'ingreso' o 'gasto'.".
Definition MSG_MONTO : string := "El monto debe ser mayor que cero.".

(** The exceptions the store lets through. *)
Inductive excepcion :=
| ValueError (mensaje : string)
| TypeError
| JSONDecodeError
| UnicodeDecodeError
| UnicodeEncodeError
| RecursionError.

(** The error kinds of the specification, as the exceptions that carry
    them. A store file that is not valid structured data makes the
    program fail in one of two ways: [open] with [encoding="utf-8"] cannot
    decode its bytes, or [json.load] cannot parse its text. *)
Definition InvalidKind : excepcion := ValueError MSG_TIPO.
Definition InvalidAmount : excepcion := ValueError MSG_MONTO.
Definition MalformedRecord : excepcion := TypeError.
Definition CorruptStore (e : excepcion) : Prop :=
  e = JSONDecodeError ∨ e = UnicodeDecodeError.

(** [dataclasses.asdict(m)] *)
Definition asdict (m : Movimiento) : list (string * Py.json) :=
  [("tipo", Py.JStr (tipo m)); ("monto", Py.JNum (monto m));
   ("categoria", Py.JStr (categoria m));
   ("descripcion", Py.JStr (descripcion m)); ("fecha", Py.JStr (fecha m))].

(** The five keyword arguments of a call of [Movimiento], before any use
    is made of them. *)
Record argumentos := {
  a_tipo : Py.json;
  a_monto : Py.json;
  a_categoria : Py.json;
  a_descripcion : Py.json;
  a_fecha : Py.json
}.

(** [Movimiento] called with the keywords of [item]: [item] must be a
    mapping, every key must name a field and every field must be given;
    [None] stands for the [TypeError] raised otherwise. *)
Definition Movimiento_kwargs (item : Py.json) : option argumentos :=
  match item with
  | Py.JObj kv =>
      if forallb (λ k, bool_decide (k ∈ CAMPOS)) (map fst kv) then
        t ← Py.dict_get kv "tipo";
        m ← Py.dict_get kv "monto";
        c ← Py.dict_get kv "categoria";
        d ← Py.dict_get kv "descripcion";
        f ← Py.dict_get kv "fecha";
        Some {| a_tipo := t; a_monto := m; a_categoria := c;
                a_descripcion := d; a_fecha := f |}
      else None
  | _ => None
  end.

(** The instance, when the arguments have the annotated types. Python does
    not check them; the embedding follows an execution only as long as the
    annotations of [Movimiento] hold. An amount written as an integer
    stays an [int] in Python, which adds and rounds it exactly: it is
    outside the annotation [float], and outside the embedding. *)
Definition anotado (a : argumentos) : option Movimiento :=
  match a_tipo a, a_monto a, a_categoria a, a_descripcion a, a_fecha a with
  | Py.JStr t, Py.JNum m, Py.JStr c, Py.JStr d, Py.JStr f =>
      Some {| tipo := t; monto := m; categoria := c; descripcion := d;
              fecha := f |}
  | _, _, _, _, _ => None
  end.

(** ** Heap, files and clock *)

Abbreviation ref := nat.

Inductive objeto :=
| OMovimiento (m : Movimiento)
| OLista (elementos : list ref).

(** *** The UTF-8 codec on reading *)

(** The decoder as an automaton over the bytes: [U0] between two
    characters, [U1], [U2], [U3] with as many continuation bytes still to
    come, [UE0], [UED], [UF0], [UF4] after a first byte that narrows the
    range of the second (no overlong form, no surrogate, nothing above
    U+10FFFF). *)
Inductive utf8_estado := U0 | U1 | U2 | U3 | UE0 | UED | UF0 | UF4 | UMal.

Definition entre (a b n : N) : bool := ((a <=? n) && (n <=? b))%N.

Definition utf8_paso (q : utf8_estado) (b : N) : utf8_estado :=
  match q with
  | U0 =>
      if entre 0x00 0x7F b then U0
      else if entre 0xC2 0xDF b then U1
      else if (b =? 0xE0)%N then UE0
      else if (b =? 0xED)%N then UED
      else if entre 0xE1 0xEF b then U2
      else if (b =? 0xF0)%N then UF0
      else if entre 0xF1 0xF3 b then U3
      else if (b =? 0xF4)%N then UF4
      else UMal
  | U1 => if entre 0x80 0xBF b then U0 else UMal
  | U2 => if entre 0x80 0xBF b then U1 else UMal
  | U3 => if entre 0x80 0xBF b then U2 else UMal
  | UE0 => if entre 0xA0 0xBF b then U1 else UMal
  | UED => if entre 0x80 0x9F b then U1 else UMal
  | UF0 => if entre 0x90 0xBF b then U2 else UMal
  | UF4 => if entre 0x80 0x8F b then U2 else UMal
  | UMal => UMal
  end.

(** [bytes.decode("utf-8")] succeeds. *)
Definition utf8_valido (bytes : string) : bool :=
  match fold_left utf8_paso
          (N_of_ascii <$> String.list_ascii_of_string bytes) U0 with
  | U0 => true
  | _ => false
  end.

(** UTF-8 as the standard defines it: the encoding of a scalar value (a
    code point up to U+10FFFF that is no surrogate), six bits to a
    continuation byte. *)
Definition escalar (c : N) : bool :=
  (c <=? 0x10FFFF)%N && negb (entre 0xD800 0xDFFF c).

Definition utf8_de (c : N) : list N :=
  if (c <? 0x80)%N then [c]
  else if (c <? 0x800)%N then [0xC0 + c / 64; 0x80 + c mod 64]%N
  else if (c <? 0x10000)%N then
    [0xE0 + c / 64 / 64; 0x80 + (c / 64) mod 64; 0x80 + c mod 64]%N
  else
    [0xF0 + c / 64 / 64 / 64; 0x80 + (c / 64 / 64) mod 64;
     0x80 + (c / 64) mod 64; 0x80 + c mod 64]%N.

(** The bytes are the encoding of some text. *)
Definition es_utf8 (bytes : string) : Prop :=
  ∃ cs, forallb escalar cs = true
        ∧ N_of_ascii <$> String.list_ascii_of_string bytes
          = concat (utf8_de <$> cs).

(** The limits at which [json.load] gives up on a text that is JSON. *)
Inductive limite :=
| Anidamiento                  (* arrays or objects nested deeper than the
                                 interpreter recurses: RecursionError *)
| Digitos (mensaje : string).  (* an integer of more digits than [int]
                                 converts: ValueError *)

(** What a file holds: the text of a document; bytes that are not the
    text of any document, because they are not UTF-8 or because what they
    encode is not JSON; or the text of a document beyond a limit of the
    reader. *)
Inductive contenido :=
| Documento (d : Py.json)
| Ilegible (bytes : string)
| Desmedido (l : limite).

Record estado := {
  heap : list objeto;
  archivos : gmap string contenido;
  hoy : Py.date
}.

Definition con_heap (h : list objeto) (st : estado) : estado :=
  {| heap := h; archivos := archivos st; hoy := hoy st |}.

Definition con_archivos (fs : gmap string contenido) (st : estado) : estado :=
  {| heap := heap st; archivos := fs; hoy := hoy st |}.

(** Why the embedding stops following an execution. *)
Inductive fuera :=
| Inalcanzable        (* a reference without its object, a file that vanished:
                        no run of the program gets there *)
| FueraDeAnotacion.   (* a loaded field outside its annotated type *)

Inductive resultado (A : Type) :=
| Ok (a : A)
| Raise (e : excepcion)
| SinModelo (f : fuera).
Arguments Ok {A} a.
Arguments Raise {A} e.
Arguments SinModelo {A} f.

(** State and exceptions: the state survives a raise. *)
Definition M (A : Type) : Type := estado → resultado A * estado.

#[global] Instance M_ret : MRet M := λ A a st, (Ok a, st).

#[global] Instance M_bind : MBind M := λ A B f m st,
  match m st with
  | (Ok a, st') => f a st'
  | (Raise e, st') => (Raise e, st')
  | (SinModelo x, st') => (SinModelo x, st')
  end.

Definition raise {A} (e : excepcion) : M A := λ st, (Raise e, st).

Definition sin_modelo {A} (f : fuera) : M A := λ st, (SinModelo f, st).

(** A new object; its reference is the next free one. *)
Definition nuevo (o : objeto) : M ref := λ st,
  (Ok (length (heap st)), con_heap (heap st ++ [o]) st).

Definition leer_lista (r : ref) : M (list ref) := λ st,
  match heap st !! r with
  | Some (OLista l) => (Ok l, st)
  | _ => (SinModelo Inalcanzable, st)
  end.

Definition leer_movimiento (r : ref) : M Movimiento := λ st,
  match heap st !! r with
  | Some (OMovimiento m) => (Ok m, st)
  | _ => (SinModelo Inalcanzable, st)
  end.

(** [l.append(x)], in place. *)
Definition list_append (r x : ref) : M unit := λ st,
  match heap st !! r with
  | Some (OLista l) => (Ok (), con_heap (<[r := OLista (l ++ [x])]> (heap st)) st)
  | _ => (SinModelo Inalcanzable, st)
  end.

(** [date.today()] *)
Definition today : M Py.date := λ st, (Ok (hoy st), st).

(** [path.exists()] *)
Definition exists_ (path : string) : M bool := λ st,
  (Ok (bool_decide (is_Some (archivos st !! path))), st).

(** [json.load] on the file at [path], opened with [encoding="utf-8"]:
    the bytes are decoded first, the text is parsed next. *)
Definition json_load (path : string) : M Py.json := λ st,
  match archivos st !! path with
  | Some (Documento d) => (Ok d, st)
  | Some (Ilegible bytes) =>
      if utf8_valido bytes then (Raise JSONDecodeError, st)
      else (Raise UnicodeDecodeError, st)
  | Some (Desmedido Anidamiento) => (Raise RecursionError, st)
  | Some (Desmedido (Digitos mensaje)) => (Raise (ValueError mensaje), st)
  | None => (SinModelo Inalcanzable, st)
  end.

(** [json.dump] to the file at [path], opened with ["w"]. Every [str] of
    this part of the development encodes ([Ancho] below has the others),
    so the write goes through. *)
Definition json_dump (d : Py.json) (path : string) : M unit := λ st,
  (Ok (), con_archivos (<[path := Documento d]> (archivos st)) st).

(** Reading the heap without running anything. *)
Definition deref_lista (h : list objeto) (r : ref) : option (list ref) :=
  match h !! r with
  | Some (OLista l) => Some l
  | _ => None
  end.

Definition deref_movimiento (h : list objeto) (r : ref) : option Movimiento :=
  match h !! r with
  | Some (OMovimiento m) => Some m
  | _ => None
  end.

(** ** The store: [class GestorFinanzas] *)

Record GestorFinanzas := {
  db_path : string;
  movimientos : ref
}.

Definition DEFAULT_DB_PATH : string := "finanzas_db.json".

(** A Python [dict] from [str] to [float]. *)
Abbreviation dict := (list (string * float)).

(** The instances [self.movimientos] holds, read in order. *)
Definition entradas (self : GestorFinanzas) : M (list Movimiento) :=
  refs ← leer_lista (movimientos self);
  mapM leer_movimiento refs.

(** The list comprehension of [_cargar]: one instance per item of [data],
    in order. The keyword check of every item is the program's; the check
    of the annotations is where the embedding may stop. *)
Definition cargar_items (data : Py.json) : M (list ref) :=
  match Py.iter data with
  | None => raise TypeError
  | Some items =>
      match mapM Movimiento_kwargs items with
      | None => raise TypeError
      | Some args =>
          match mapM anotado args with
          | None => sin_modelo FueraDeAnotacion
          | Some ms => mapM (λ m, nuevo (OMovimiento m)) ms
          end
      end
  end.

(** [_cargar]; the result carries the new binding of [self.movimientos]. *)
Definition _cargar (self : GestorFinanzas) : M GestorFinanzas :=
  e ← exists_ (db_path self);
  if negb e then
    l ← nuevo (OLista []);
    mret {| db_path := db_path self; movimientos := l |}
  else
    data ← json_load (db_path self);
    refs ← cargar_items data;
    l ← nuevo (OLista refs);
    mret {| db_path := db_path self; movimientos := l |}.

(** [GestorFinanzas(db_path)] *)
Definition __init__ (path : string) : M GestorFinanzas :=
  l ← nuevo (OLista []);
  _cargar {| db_path := path; movimientos := l |}.

Definition serializable (ms : list Movimiento) : Py.json :=
  Py.JArr ((λ m, Py.JObj (asdict m)) <$> ms).

Definition _guardar (self : GestorFinanzas) : M unit :=
  ms ← entradas self;
  json_dump (serializable ms) (db_path self).

(** [fecha or date.today().isoformat()] *)
Definition fecha_o_hoy (f : option string) : M string :=
  match f with
  | Some s => if decide (s = "") then d ← today; mret (Py.isoformat d) else mret s
  | None => d ← today; mret (Py.isoformat d)
  end.

(** [agregar_movimiento(tipo, monto, categoria, descripcion, fecha)];
    [descripcion] defaults to [""] and [fecha] to [None]. *)
Definition agregar_movimiento (self : GestorFinanzas) (tipo_ : string)
    (monto_ : float) (categoria_ descripcion_ : string)
    (fecha_ : option string) : M ref :=
  if bool_decide (tipo_ ∉ TIPOS) then raise (ValueError MSG_TIPO)
  else if (monto_ <=? 0)%float then raise (ValueError MSG_MONTO)
  else
    f ← fecha_o_hoy fecha_;
    movimiento ← nuevo (OMovimiento
      {| tipo := tipo_;
         monto := monto_;
         categoria := Py.str_or (Py.strip categoria_) "general";
         descripcion := Py.strip descripcion_;
         fecha := f |});
    list_append (movimientos self) movimiento;;
    _guardar self;;
    mret movimiento.

(** [resumen()], run by CPython up to 3.11. *)
Definition resumen (self : GestorFinanzas) : M dict :=
  ms1 ← entradas self;
  let ingresos :=
    Py.sum (monto <$> filter (λ m, tipo m = "ingreso") ms1) in
  ms2 ← entradas self;
  let gastos :=
    Py.sum (monto <$> filter (λ m, tipo m = "gasto") ms2) in
  mret [("ingresos", Py.round2 ingresos);
        ("gastos", Py.round2 gastos);
        ("balance", Py.round2 (ingresos - gastos)%float)].

(** [resumen()], run by CPython 3.12 or later: the same code, with the
    [sum] of that interpreter. *)
Definition resumen_compensado (self : GestorFinanzas) : M dict :=
  ms1 ← entradas self;
  let ingresos :=
    Py.sum_compensada (monto <$> filter (λ m, tipo m = "ingreso") ms1) in
  ms2 ← entradas self;
  let gastos :=
    Py.sum_compensada (monto <$> filter (λ m, tipo m = "gasto") ms2) in
  mret [("ingresos", Py.round2 ingresos);
        ("gastos", Py.round2 gastos);
        ("balance", Py.round2 (ingresos - gastos)%float)].

(** One turn of the loop of [resumen_por_categoria]. *)
Definition acumular (tipo_ : string) (totales : dict) (mov : Movimiento)
  : dict :=
  if decide (tipo mov ≠ tipo_) then totales
  else
    Py.dict_set totales (categoria mov)
      (default 0%float (Py.dict_get totales (categoria mov)) + monto mov)%float.

(** [{cat: round(total, 2) for cat, total in items}] *)
Definition redondeados (items : dict) : dict :=
  fold_left (λ d p, Py.dict_set d p.1 (Py.round2 p.2)) items [].

(** [resumen_por_categoria(tipo)]; [tipo] defaults to ["gasto"]. *)
Definition resumen_por_categoria (self : GestorFinanzas) (tipo_ : string)
  : M dict :=
  if bool_decide (tipo_ ∉ TIPOS) then raise (ValueError MSG_TIPO)
  else
    ms ← entradas self;
    let totales := fold_left (acumular tipo_) ms [] in
    mret (redondeados (Py.sorted totales)).

(** [listar()]: [list(self.movimientos)], a new list of the same
    instances. *)
Definition listar (self : GestorFinanzas) : M ref :=
  refs ← leer_lista (movimientos self);
  nuevo (OLista refs).

(** ** What a caller can do with what [listar] returned *)

(** Any restructuring of a list object ([append], [pop], [clear], [sort],
    item or slice assignment): its elements become [elementos]. *)
Definition reestructurar (r : ref) (elementos : list ref) : M unit := λ st,
  match heap st !! r with
  | Some (OLista _) => (Ok (), con_heap (<[r := OLista elementos]> (heap st)) st)
  | _ => (SinModelo Inalcanzable, st)
  end.

(** Attribute assignments on an instance ([m.monto = x] and the like): its
    fields become those of [m']. *)
Definition asignar (r : ref) (m' : Movimiento) : M unit := λ st,
  match heap st !! r with
  | Some (OMovimiento _) =>
      (Ok (), con_heap (<[r := OMovimiento m']> (heap st)) st)
  | _ => (SinModelo Inalcanzable, st)
  end.

(** ** Observations *)

(** The ledger as the store sees it: the values of its instances, in
    order. *)
Definition libro (self : GestorFinanzas) (st : estado)
  : option (list Movimiento) :=
  refs ← deref_lista (heap st) (movimientos self);
  mapM (deref_movimiento (heap st)) refs.

(** The public operations of a constructed store. *)
Inductive operacion :=
| OpAgregar (tipo_ : string) (monto_ : float) (categoria_ descripcion_ : string)
    (fecha_ : option string)
| OpResumen
| OpResumenPorCategoria (tipo_ : string)
| OpListar.

Definition ejecutar (self : GestorFinanzas) (op : operacion) : M unit :=
  match op with
  | OpAgregar t m c d f => agregar_movimiento self t m c d f;; mret ()
  | OpResumen => resumen self;; mret ()
  | OpResumenPorCategoria t => resumen_por_categoria self t;; mret ()
  | OpListar => listar self;; mret ()
  end.

(** ** Notions the properties are stated with *)

(** The arguments of one call of [agregar_movimiento]. *)
Record entrada := {
  e_tipo : string;
  e_monto : float;
  e_categoria : string;
  e_descripcion : string;
  e_fecha : option string
}.

Definition agregar (self : GestorFinanzas) (e : entrada) : M ref :=
  agregar_movimiento self (e_tipo e) (e_monto e) (e_categoria e)
    (e_descripcion e) (e_fecha e).

(** [agregar_movimiento] called once per element, in order. *)
Definition agregar_todos (self : GestorFinanzas) (es : list entrada)
  : M (list ref) :=
  mapM (agregar self) es.

(** A call that passes both checks of [agregar_movimiento]. *)
Definition entrada_valida (e : entrada) : Prop :=
  e_tipo e ∈ TIPOS ∧ (0 <? e_monto e)%float = true.

(** The entry a valid call records when the clock shows [d]. *)
Definition registrada (d : Py.date) (e : entrada) : Movimiento :=
  {| tipo := e_tipo e;
     monto := e_monto e;
     categoria :=
       if decide (Py.strip (e_categoria e) = "") then "general"
       else Py.strip (e_categoria e);
     descripcion := Py.strip (e_descripcion e);
     fecha :=
       match e_fecha e with
       | Some s => if decide (s = "") then Py.isoformat d else s
       | None => Py.isoformat d
       end |}.

(** Ten characters, digits but for a hyphen in the fifth and in the eighth
    place: the form [YYYY-MM-DD]. *)
Definition es_digito (c : ascii) : bool :=
  let n := N_of_ascii c in ((48 <=? n) && (n <=? 57))%N.

Definition forma_iso (s : string) : bool :=
  match String.list_ascii_of_string s with
  | [y1; y2; y3; y4; g1; m1; m2; g2; d1; d2] =>
      forallb es_digito [y1; y2; y3; y4; m1; m2; d1; d2]
      && bool_decide (g1 = "-"%char) && bool_decide (g2 = "-"%char)
  | _ => false
  end.

(** The sum of the amounts of one kind, in ledger order. *)
Definition total (tipo_ : string) (ms : list Movimiento) : float :=
  fold_left (λ acc m, if decide (tipo m = tipo_) then (acc + monto m)%float else acc)
    ms 0%float.

(** The sum of the amounts of one kind and one category, in ledger order. *)
Definition total_categoria (tipo_ cat : string) (ms : list Movimiento) : float :=
  Py.sum (monto <$> filter (λ m, tipo m = tipo_ ∧ categoria m = cat) ms).

(** Rounding to two decimals as the specification words it: a value
    exactly half way between two hundredths goes up. *)
Definition div_half_up (num den : Z) : Z :=
  let q := (num / den)%Z in
  if (2 * (num mod den) <? den)%Z then q else (q + 1)%Z.

Definition centesimas_half_up (m : positive) (e : Z) : Z :=
  match e with
  | Zneg p => div_half_up (Zpos m * 100) (Z.pow_pos 2 p)
  | _ => (Zpos m * 100 * 2 ^ e)%Z
  end.

Definition round2_half_up (x : float) : float :=
  match Prim2SF x with
  | S754_finite s m e => Py.de_centesimas s (centesimas_half_up m e)
  | _ => x
  end.

(** [Summary()] as the specification words it. *)
Definition resumen_half_up (ms : list Movimiento) : dict :=
  [("ingresos", round2_half_up (total "ingreso" ms));
   ("gastos", round2_half_up (total "gasto" ms));
   ("balance", round2_half_up (total "ingreso" ms - total "gasto" ms)%float)].

(** [a < b] on [str], as a relation. *)
Definition str_lt (a b : string) : Prop := String.ltb a b = true.

(** Four and two decimal digits, the last ones of [n]. *)
Definition cuatro (n : N) : string :=
  String (Py.digito (n / 1000)) (String (Py.digito (n / 100))
    (String (Py.digito (n / 10)) (String (Py.digito n) ""))).

Definition dos (n : N) : string :=
  String (Py.digito (n / 10)) (String (Py.digito n) "").

(** A loaded object that lacks a field, or has a key that names none. *)
Definition falta_campo (kv : list (string * Py.json)) : Prop :=
  ∃ c, c ∈ CAMPOS ∧ Py.dict_get kv c = None.

Definition campo_extra (kv : list (string * Py.json)) : Prop :=
  ∃ k, k ∈ kv.*1 ∧ k ∉ CAMPOS.

(** The arguments [asdict m] binds. *)
Definition argumentos_de (m : Movimiento) : argumentos :=
  {| a_tipo := Py.JStr (tipo m); a_monto := Py.JNum (monto m);
     a_categoria := Py.JStr (categoria m);
     a_descripcion := Py.JStr (descripcion m);
     a_fecha := Py.JStr (fecha m) |}.

(** An item of the loaded array that [Movimiento] does not accept. *)
Definition mal_formado (item : Py.json) : Prop :=
  match item with
  | Py.JObj kv => falta_campo kv ∨ campo_extra kv
  | _ => True
  end.

(** The file of the store holds the ledger [ms]; before the first write
    there may be no file, and the ledger is then empty. *)
Definition sincronizado (self : GestorFinanzas) (st : estado)
    (ms : list Movimiento) : Prop :=
  archivos st !! db_path self = Some (Documento (serializable ms))
  ∨ (ms = [] ∧ archivos st !! db_path self = None).

(** ** Sample states *)

Definition reloj : Py.date := {| Py.year := 2024; Py.month := 5; Py.day := 7 |}.

Definition mov (t : string) (x : float) (c : string) : Movimiento :=
  {| tipo := t; monto := x; categoria := c; descripcion := "";
     fecha := "2024-05-07" |}.

(** A store whose list object is at reference 0. *)
Definition gestor0 : GestorFinanzas :=
  {| db_path := DEFAULT_DB_PATH; movimientos := 0 |}.

Definition estado_de (ms : list Movimiento) : estado :=
  {| heap := OLista (seq 1 (length ms)) :: (OMovimiento <$> ms);
     archivos := {[ DEFAULT_DB_PATH := Documento (serializable ms) ]};
     hoy := reloj |}.

(** A store file that is not JSON, and two that hold one object each: one
    without [fecha], one with a key that names no field. *)
Definition con_archivo (c : contenido) : estado :=
  {| heap := []; archivos := {[ DEFAULT_DB_PATH := c ]}; hoy := reloj |}.

Definition sin_fecha : Py.json :=
  Py.JObj [("tipo", Py.JStr "gasto"); ("monto", Py.JNum 10);
           ("categoria", Py.JStr "food"); ("descripcion", Py.JStr "")].

Definition con_nota : Py.json :=
  Py.JObj (asdict (mov "gasto" 10 "food") ++ [("nota", Py.JStr "x")]).

Definition sin_archivos : estado :=
  {| heap := []; archivos := ∅; hoy := reloj |}.

Definition libro_resumen : list Movimiento :=
  [mov "ingreso" 100 "general"; mov "gasto" 40 "general";
   mov "gasto" 10 "general"].

Definition libro_categorias : list Movimiento :=
  [mov "gasto" 10 "food"; mov "gasto" 5 "food"; mov "gasto" 20 "rent"].

Definition libro_octavo : list Movimiento := [mov "ingreso" 0.125 "general"].

(** Amounts that are not whole: the total of food, 2.125, lies half way
    between two hundredths, and that of rent, the binary64 number written
    1.005, lies below the half. *)
Definition libro_fracciones : list Movimiento :=
  [mov "gasto" 0.125 "food"; mov "gasto" 1.005 "rent"; mov "gasto" 2 "food"].

(** Three incomes whose sum the two ways of adding round apart: added
    from left to right they make 0.42500000000000004, with the
    compensation 0.425. *)
Definition libro_compensado : list Movimiento :=
  [mov "ingreso" 0.375 "general"; mov "ingreso" 0.035 "general";
   mov "ingreso" 0.015 "general"].

(** The amounts of one kind, in ledger order: what [resumen] hands to
    [sum]. *)
Definition montos (tipo_ : string) (ms : list Movimiento) : list float :=
  monto <$> filter (λ m, tipo m = tipo_) ms.

(** The bytes FF FE, which are not UTF-8. *)
Definition bytes_FF_FE : string :=
  String (ascii_of_N 255) (String (ascii_of_N 254) "").

Definition entradas_ejemplo : list entrada :=
  [ {| e_tipo := "gasto"; e_monto := 10; e_categoria := " food ";
       e_descripcion := " almuerzo"; e_fecha := None |};
    {| e_tipo := "ingreso"; e_monto := 0.125; e_categoria := "  ";
       e_descripcion := ""; e_fecha := Some "not-a-date" |} ].

(** ** Further notions *)

(** The file at [path] holds the ledger [ms]; where there is no file, the
    ledger is empty. *)
Definition guarda (path : string) (st : estado) (ms : list Movimiento)
  : Prop :=
  archivos st !! path = Some (Documento (serializable ms))
  ∨ (ms = [] ∧ archivos st !! path = None).

(** A string that neither begins nor ends with white space. *)
Definition sin_bordes (s : string) : Prop :=
  (∀ c, head (String.list_ascii_of_string s) = Some c → Py.isspace c = false)
  ∧ (∀ c, last (String.list_ascii_of_string s) = Some c → Py.isspace c = false).

(** What every entry made by [agregar_movimiento] satisfies. *)
Definition entrada_normal (m : Movimiento) : Prop :=
  tipo m ∈ TIPOS
  ∧ (monto m <=? 0)%float = false
  ∧ categoria m ≠ ""
  ∧ sin_bordes (categoria m)
  ∧ sin_bordes (descripcion m)
  ∧ fecha m ≠ "".

(** The arguments that bring an entry of the ledger back in. *)
Definition entrada_de (m : Movimiento) : entrada :=
  {| e_tipo := tipo m; e_monto := monto m; e_categoria := categoria m;
     e_descripcion := descripcion m; e_fecha := Some (fecha m) |}.

(** A state with two stores on one file: both were constructed while the
    file held [ms]. *)
Definition gestor_a : GestorFinanzas :=
  {| db_path := DEFAULT_DB_PATH; movimientos := 0 |}.

Definition gestor_b : GestorFinanzas :=
  {| db_path := DEFAULT_DB_PATH; movimientos := 1 |}.

Definition dos_gestores (ms : list Movimiento) : estado :=
  {| heap := OLista (seq 2 (length ms))
             :: OLista (seq (2 + length ms) (length ms))
             :: (OMovimiento <$> ms) ++ (OMovimiento <$> ms);
     archivos := {[ DEFAULT_DB_PATH := Documento (serializable ms) ]};
     hoy := reloj |}.

Definition entrada_a : entrada :=
  {| e_tipo := "gasto"; e_monto := 3; e_categoria := "cafe";
     e_descripcion := ""; e_fecha := None |}.

Definition entrada_b : entrada :=
  {| e_tipo := "ingreso"; e_monto := 7; e_categoria := "venta";
     e_descripcion := ""; e_fecha := None |}.

(** A ledger as a hand-edited file can give it: one entry of a kind that
    is neither ingreso nor gasto. *)
Definition libro_editado : list Movimiento :=
  [mov "ingreso" 100 "sueldo"; mov "ahorro" 30 "banco"; mov "gasto" 40 "food"].

(** ** The command line: [main] *)

(** Printed text: a [str] as its code points, so that the pictographs of
    the messages have a place beside the characters below 256. *)
Abbreviation texto := (list N).

Definition texto_de (s : string) : texto :=
  N_of_ascii <$> String.list_ascii_of_string s.

(** [format(x, ".2f")]: the exact value rounded to two decimals, ties to
    even, and written out in full; the sign of a negative zero is kept. *)
Definition format_2f (x : float) : string :=
  match Prim2SF x with
  | S754_nan => "nan"
  | S754_infinity s => if s then "-inf" else "inf"
  | S754_zero s => (if s then "-" else "") +:+ "0.00"
  | S754_finite s m e =>
      let n := Z.to_N (Py.centesimas m e) in
      (if s then "-" else "") +:+ Py.decimal (n / 100) +:+ "."
      +:+ Py.formato_d 2 (n mod 100)
  end.

(** The format specifications [<ancho] and [>ancho]: spaces up to the
    width, after or before the text; a longer text is left whole. *)
Definition ljust (ancho : nat) (t : texto) : texto :=
  t ++ replicate (ancho - length t) 32%N.

Definition rjust (ancho : nat) (t : texto) : texto :=
  replicate (ancho - length t) 32%N ++ t.

(** The lines [main] prints. *)
Definition linea_registrado (m : Movimiento) : texto :=
  [0x2705%N] ++ texto_de " Movimiento registrado: " ++ texto_de (tipo m)
  ++ texto_de " | " ++ texto_de (categoria m) ++ texto_de " | $"
  ++ texto_de (format_2f (monto m)).

Definition titulo_resumen : texto :=
  [0x1F4CA%N] ++ texto_de " Resumen general".

Definition linea_ingresos (x : float) : texto :=
  texto_de "Ingresos: $" ++ texto_de (format_2f x).

Definition linea_gastos (x : float) : texto :=
  texto_de "Gastos:   $" ++ texto_de (format_2f x).

Definition linea_balance (x : float) : texto :=
  texto_de "Balance:  $" ++ texto_de (format_2f x).

Definition titulo_categorias (tipo_ : string) : texto :=
  [0x1F4C2%N] ++ texto_de " Resumen por categor" ++ [0xED%N]
  ++ texto_de "a (" ++ texto_de tipo_ ++ texto_de ")".

Definition sin_datos : texto := texto_de "No hay movimientos para mostrar.".

Definition linea_categoria (p : string * float) : texto :=
  texto_de "- " ++ texto_de p.1 ++ texto_de ": $"
  ++ texto_de (format_2f p.2).

Definition sin_movimientos : texto :=
  texto_de "No hay movimientos registrados todav" ++ [0xED%N]
  ++ texto_de "a.".

Definition titulo_movimientos : texto :=
  [0x1F9FE%N] ++ texto_de " Movimientos".

Definition linea_movimiento (m : Movimiento) : texto :=
  texto_de (fecha m) ++ texto_de " | " ++ ljust 7 (texto_de (tipo m))
  ++ texto_de " | " ++ ljust 15 (texto_de (categoria m))
  ++ texto_de " | $" ++ rjust 10 (texto_de (format_2f (monto m)))
  ++ texto_de " | " ++ texto_de (descripcion m).

(** What [parse_args] returns for the parser of [crear_parser]: the path
    of [--db] and one of the four subcommands with its arguments. *)
Inductive orden :=
| CmdAgregar (tipo_ : string) (monto_ : float)
    (categoria_ descripcion_ : string) (fecha_ : option string)
| CmdResumen
| CmdCategorias (tipo_ : string)
| CmdListar.

Record Namespace := {
  db : string;
  comando : orden
}.

(** The program with its standard output: the state of the store and the
    lines printed so far, both of which survive a raise. *)
Definition P (A : Type) : Type :=
  estado * list texto → resultado A * (estado * list texto).

#[global] Instance P_ret : MRet P := λ A a s, (Ok a, s).

#[global] Instance P_bind : MBind P := λ A B f m s,
  match m s with
  | (Ok a, s') => f a s'
  | (Raise e, s') => (Raise e, s')
  | (SinModelo x, s') => (SinModelo x, s')
  end.

(** A step of the store, which prints nothing. *)
Definition elevar {A} (m : M A) : P A := λ s,
  ((m s.1).1, ((m s.1).2, s.2)).

Definition print (t : texto) : P unit := λ s, (Ok (), (s.1, s.2 ++ [t])).

(** [r[k]] on the mapping [resumen] returned, which has the three keys. *)
Definition getitem (r : dict) (k : string) : P float :=
  match Py.dict_get r k with
  | Some v => mret v
  | None => elevar (sin_modelo Inalcanzable)
  end.

Definition main (args : Namespace) : P unit :=
  gestor ← elevar (__init__ (db args));
  match comando args with
  | CmdAgregar t x c d f =>
      creado ← elevar (agregar_movimiento gestor t x c d f);
      m ← elevar (leer_movimiento creado);
      print (linea_registrado m)
  | CmdResumen =>
      r ← elevar (resumen gestor);
      print titulo_resumen;;
      i ← getitem r "ingresos";
      print (linea_ingresos i);;
      g ← getitem r "gastos";
      print (linea_gastos g);;
      b ← getitem r "balance";
      print (linea_balance b)
  | CmdCategorias t =>
      r ← elevar (resumen_por_categoria gestor t);
      print (titulo_categorias t);;
      match r with
      | [] => print sin_datos
      | _ :: _ => mret ()
      end;;
      mapM (λ p, print (linea_categoria p)) r;;
      mret ()
  | CmdListar =>
      l ← elevar (listar gestor);
      refs ← elevar (leer_lista l);
      match refs with
      | [] => print sin_movimientos
      | _ :: _ =>
          print titulo_movimientos;;
          mapM (λ r, m ← elevar (leer_movimiento r);
                     print (linea_movimiento m)) refs;;
          mret ()
      end
  end.

(** The subcommands that only ask. *)
Definition solo_consulta (c : orden) : bool :=
  match c with
  | CmdAgregar _ _ _ _ _ => false
  | _ => true
  end.


(** ** The store over every [str]

    Above, a [str] is a [string] of code points below 256, and all of those
    encode. [Ancho] has [agregar_movimiento], [_guardar] and [listar] once
    more, over every [str]: a [str] is the list of its code points, the
    white space of [str.strip] is all there, and so are the lone surrogates
    (U+D800 to U+DFFF), which the UTF-8 codec of the store file refuses.
    The ledger is kept by value, as the contents of the list
    [self.movimientos] names: nothing stated over [Ancho] depends on which
    instance is which. *)
Module Ancho.

Abbreviation str := (list N).

(** [str.isspace] on one code point. *)
Definition isspace (c : N) : bool :=
  entre 9 13 c || entre 28 32 c || (c =? 133)%N || (c =? 160)%N
  || (c =? 5760)%N || entre 8192 8202 c || (c =? 8232)%N || (c =? 8233)%N
  || (c =? 8239)%N || (c =? 8287)%N || (c =? 12288)%N.

Fixpoint lstrip (s : str) : str :=
  match s with
  | [] => []
  | c :: r => if isspace c then lstrip r else s
  end.

Fixpoint rstrip (s : str) : str :=
  match s with
  | [] => []
  | c :: r =>
      match rstrip r with
      | [] => if isspace c then [] else [c]
      | r' => c :: r'
      end
  end.

(** [s.strip()] *)
Definition strip (s : str) : str := rstrip (lstrip s).

(** [a or b] on [str]: the empty string is the only falsy one. *)
Definition str_or (a b : str) : str :=
  match a with
  | [] => b
  | _ :: _ => a
  end.

(** A surrogate: the one kind of code point [str.encode("utf-8")] raises
    on. *)
Definition sustituto (c : N) : bool := entre 0xD800 0xDFFF c.

(** [s.encode("utf-8")] succeeds. *)
Definition codificable (s : str) : bool :=
  forallb (λ c, negb (sustituto c)) s.

(** [@dataclass class Movimiento] *)
Record Movimiento := {
  tipo : str;
  monto : float;
  categoria : str;
  descripcion : str;
  fecha : str
}.

(** [{"ingreso", "gasto"}] *)
Definition TIPOS : gset str := {[texto_de "ingreso"; texto_de "gasto"]}.

(** The documents [_guardar] writes. *)
Inductive json :=
| JNum (x : float)
| JStr (s : str)
| JArr (items : list json)
| JObj (pares : list (str * json)).

(** [dataclasses.asdict(m)] *)
Definition asdict (m : Movimiento) : list (str * json) :=
  [(texto_de "tipo", JStr (tipo m)); (texto_de "monto", JNum (monto m));
   (texto_de "categoria", JStr (categoria m));
   (texto_de "descripcion", JStr (descripcion m));
   (texto_de "fecha", JStr (fecha m))].

Definition serializable (ms : list Movimiento) : json :=
  JArr ((λ m, JObj (asdict m)) <$> ms).

(** Every key and every string of the document encodes. With
    [ensure_ascii=False] they go to the file as they are, so this is what
    the write of the document needs. *)
Fixpoint json_codificable (d : json) : bool :=
  match d with
  | JNum _ => true
  | JStr s => codificable s
  | JArr items => forallb json_codificable items
  | JObj pares =>
      forallb (λ p, codificable (fst p) && json_codificable (snd p)) pares
  end.

(** What the store file holds after a write: the whole text of a document,
    or its beginning, up to the first string that does not encode. The
    second is never the text of a document: the array is not closed. *)
Inductive contenido :=
| Documento (d : json)
| Truncado (d : json).

(** The list [self.movimientos] names, the files and the clock. *)
Record estado := {
  movimientos : list Movimiento;
  archivos : gmap string contenido;
  hoy : Py.date
}.

Definition M (A : Type) : Type := estado → resultado A * estado.

#[global] Instance M_ret : MRet M := λ A a st, (Ok a, st).

#[global] Instance M_bind : MBind M := λ A B f m st,
  match m st with
  | (Ok a, st') => f a st'
  | (Raise e, st') => (Raise e, st')
  | (SinModelo x, st') => (SinModelo x, st')
  end.

Definition raise {A} (e : excepcion) : M A := λ st, (Raise e, st).

(** [date.today()] *)
Definition today : M Py.date := λ st, (Ok (hoy st), st).

(** Reading [self.movimientos]. *)
Definition entradas : M (list Movimiento) := λ st, (Ok (movimientos st), st).

(** [self.movimientos.append(m)] *)
Definition list_append (m : Movimiento) : M unit := λ st,
  (Ok (), {| movimientos := movimientos st ++ [m];
             archivos := archivos st; hoy := hoy st |}).

(** [json.dump] to the file at [path], opened with ["w"] and
    [encoding="utf-8"]: opening empties the file; the text is written
    piece by piece, and the first piece that does not encode raises, with
    the pieces before it left in the file. *)
Definition json_dump (d : json) (path : string) : M unit := λ st,
  if json_codificable d then
    (Ok (), {| movimientos := movimientos st;
               archivos := <[path := Documento d]> (archivos st);
               hoy := hoy st |})
  else
    (Raise UnicodeEncodeError,
     {| movimientos := movimientos st;
        archivos := <[path := Truncado d]> (archivos st);
        hoy := hoy st |}).

(** The store: its path. *)
Record GestorFinanzas := { db_path : string }.

Definition _guardar (self : GestorFinanzas) : M unit :=
  ms ← entradas;
  json_dump (serializable ms) (db_path self).

(** [fecha or date.today().isoformat()] *)
Definition fecha_o_hoy (f : option str) : M str :=
  match f with
  | Some (c :: s) => mret (c :: s)
  | _ => d ← today; mret (texto_de (Py.isoformat d))
  end.

(** [agregar_movimiento(tipo, monto, categoria, descripcion, fecha)] *)
Definition agregar_movimiento (self : GestorFinanzas) (tipo_ : str)
    (monto_ : float) (categoria_ descripcion_ : str)
    (fecha_ : option str) : M Movimiento :=
  if bool_decide (tipo_ ∉ TIPOS) then raise (ValueError MSG_TIPO)
  else if (monto_ <=? 0)%float then raise (ValueError MSG_MONTO)
  else
    f ← fecha_o_hoy fecha_;
    let movimiento :=
      {| tipo := tipo_;
         monto := monto_;
         categoria := str_or (strip categoria_) (texto_de "general");
         descripcion := strip descripcion_;
         fecha := f |} in
    list_append movimiento;;
    _guardar self;;
    mret movimiento.

(** [listar()]: a new list of the entries. *)
Definition listar (self : GestorFinanzas) : M (list Movimiento) :=
  ms ← entradas;
  mret ms.

(** *** Notions *)

(** The code points [str.isspace] holds of. *)
Definition BLANCOS : list N :=
  [9; 10; 11; 12; 13; 28; 29; 30; 31; 32; 133; 160; 5760; 8192; 8193; 8194;
   8195; 8196; 8197; 8198; 8199; 8200; 8201; 8202; 8232; 8233; 8239; 8287;
   12288]%N.

(** [t] is [s] without the white space at its two ends: [s] is [t] between
    two runs of white space, and [t] neither begins nor ends with any. *)
Definition recortada (s t : str) : Prop :=
  ∃ pre post,
    s = pre ++ t ++ post
    ∧ forallb isspace pre = true
    ∧ forallb isspace post = true
    ∧ (∀ c, head t = Some c → isspace c = false)
    ∧ (∀ c, last t = Some c → isspace c = false).

(** No string of the entry holds a lone surrogate. *)
Definition codificable_mov (m : Movimiento) : bool :=
  codificable (tipo m) && codificable (categoria m)
  && codificable (descripcion m) && codificable (fecha m).

(** The entry a call that passes both checks makes, when the clock shows
    [d]. *)
Definition registrada (d : Py.date) (tipo_ : str) (monto_ : float)
    (categoria_ descripcion_ : str) (fecha_ : option str) : Movimiento :=
  {| tipo := tipo_;
     monto := monto_;
     categoria :=
       match strip categoria_ with
       | [] => texto_de "general"
       | c :: s => c :: s
       end;
     descripcion := strip descripcion_;
     fecha :=
       match fecha_ with
       | Some (c :: s) => c :: s
       | _ => texto_de (Py.isoformat d)
       end |}.

(** *** Sample values *)

Definition gestor : GestorFinanzas := {| db_path := DEFAULT_DB_PATH |}.

Definition vacio : estado :=
  {| movimientos := []; archivos := ∅; hoy := reloj |}.

(** A store with one entry on file. *)
Definition almuerzo : Movimiento :=
  {| tipo := texto_de "gasto"; monto := 10; categoria := texto_de "food";
     descripcion := texto_de "almuerzo"; fecha := texto_de "2024-05-06" |}.

Definition con_almuerzo : estado :=
  {| movimientos := [almuerzo];
     archivos := {[ DEFAULT_DB_PATH := Documento (serializable [almuerzo]) ]};
     hoy := reloj |}.

(** An ideographic space, [cena], a no-break space and a line feed. *)
Definition cena_con_blancos : str := [12288%N] ++ texto_de "cena" ++ [160; 10]%N.

(** A lone surrogate, between two letters. *)
Definition con_sustituto : str := [97; 0xD800; 98]%N.

End Ancho.

(** * Properties *)

(** ** The monad and the heap *)

Lemma bind_Ok {A B} (m : M A) (k : A → M B) st a st' :
  m st = (Ok a, st') → (m ≫= k) st = k a st'.
Proof. intros H. unfold mbind, M_bind. by rewrite H. Qed.

Lemma bind_Raise {A B} (m : M A) (k : A → M B) st e st' :
  m st = (Raise e, st') → (m ≫= k) st = (Raise e, st').
Proof. intros H. unfold mbind, M_bind. by rewrite H. Qed.

Lemma bind_SinModelo {A B} (m : M A) (k : A → M B) st f st' :
  m st = (SinModelo f, st') → (m ≫= k) st = (SinModelo f, st').
Proof. intros H. unfold mbind, M_bind. by rewrite H. Qed.

Lemma leer_lista_run r st :
  leer_lista r st =
    match deref_lista (heap st) r with
    | Some l => (Ok l, st)
    | None => (SinModelo Inalcanzable, st)
    end.
Proof.
  unfold leer_lista, deref_lista.
  destruct (heap st !! r) as [[?|?]|]; reflexivity.
Qed.

Lemma leer_movimiento_run r st :
  leer_movimiento r st =
    match deref_movimiento (heap st) r with
    | Some m => (Ok m, st)
    | None => (SinModelo Inalcanzable, st)
    end.
Proof.
  unfold leer_movimiento, deref_movimiento.
  destruct (heap st !! r) as [[?|?]|]; reflexivity.
Qed.

Lemma mapM_leer_run refs st :
  mapM leer_movimiento refs st =
    match mapM (deref_movimiento (heap st)) refs with
    | Some ms => (Ok ms, st)
    | None => (SinModelo Inalcanzable, st)
    end.
Proof.
  induction refs as [|r refs IH]; [reflexivity|].
  cbn [mapM]. unfold mbind at 1. unfold M_bind at 1.
  rewrite leer_movimiento_run.
  destruct (deref_movimiento (heap st) r) as [m|]; cbn; [|reflexivity].
  unfold mbind at 1. unfold M_bind at 1. rewrite IH.
  destruct (mapM (deref_movimiento (heap st)) refs); reflexivity.
Qed.

(** Reading the ledger runs to the value [libro] gives and changes
    nothing. *)
Lemma entradas_run self st :
  entradas self st =
    match libro self st with
    | Some ms => (Ok ms, st)
    | None => (SinModelo Inalcanzable, st)
    end.
Proof.
  unfold entradas, libro. unfold mbind at 1. unfold M_bind at 1.
  rewrite leer_lista_run.
  destruct (deref_lista (heap st) (movimientos self)) as [refs|]; cbn;
    [apply mapM_leer_run | reflexivity].
Qed.

Lemma mapM_deref_cong h h' refs :
  (∀ r, r ∈ refs → deref_movimiento h' r = deref_movimiento h r) →
  mapM (deref_movimiento h') refs = mapM (deref_movimiento h) refs.
Proof.
  induction refs as [|r refs IH]; intros Hrefs; [reflexivity|].
  cbn [mapM]. rewrite Hrefs by left. rewrite IH; [reflexivity|].
  intros r' Hr'. apply Hrefs. by right.
Qed.

Lemma mapM_deref_snoc h refs ms r m :
  mapM (deref_movimiento h) refs = Some ms →
  deref_movimiento h r = Some m →
  mapM (deref_movimiento h) (refs ++ [r]) = Some (ms ++ [m]).
Proof.
  rewrite !mapM_Some. intros Hrefs Hr.
  apply Forall2_app; [done|]. by constructor.
Qed.

Lemma deref_movimiento_lt h r m :
  deref_movimiento h r = Some m → r < length h.
Proof.
  unfold deref_movimiento. intros H. apply lookup_lt_is_Some.
  destruct (h !! r); [by eexists | discriminate H].
Qed.

Lemma deref_lista_lt h r l : deref_lista h r = Some l → r < length h.
Proof.
  unfold deref_lista. intros H. apply lookup_lt_is_Some.
  destruct (h !! r); [by eexists | discriminate H].
Qed.

(** An instance and a list are never the same object. *)
Lemma deref_distintos h r r' l m :
  deref_lista h r = Some l → deref_movimiento h r' = Some m → r ≠ r'.
Proof.
  unfold deref_lista, deref_movimiento. intros Hl Hm ->.
  destruct (h !! r') as [[?|?]|]; discriminate.
Qed.

(** Objects added at the end, and a change of one list object, leave the
    instances alone. *)
Lemma deref_movimiento_frame h h' r l r' m :
  deref_movimiento h r' = Some m → r ≠ r' →
  deref_movimiento (<[r := OLista l]> (h ++ h')) r' = Some m.
Proof.
  intros Hm Hne. pose proof (deref_movimiento_lt _ _ _ Hm) as Hlt.
  unfold deref_movimiento in *.
  rewrite list_lookup_insert_ne by done. by rewrite lookup_app_l.
Qed.

Lemma mapM_deref_frame h h' r l refs ms :
  mapM (deref_movimiento h) refs = Some ms →
  r ∉ refs →
  mapM (deref_movimiento (<[r := OLista l]> (h ++ h'))) refs = Some ms.
Proof.
  rewrite !mapM_Some. intros Hrefs.
  induction Hrefs as [|r' m refs ms Hr' _ IH]; intros Hnotin;
    [constructor|].
  apply not_elem_of_cons in Hnotin as [Hne Hnotin].
  constructor; [by apply deref_movimiento_frame | by apply IH].
Qed.

Lemma libro_refs self st ms :
  libro self st = Some ms →
  ∃ refs, deref_lista (heap st) (movimientos self) = Some refs ∧
          mapM (deref_movimiento (heap st)) refs = Some ms.
Proof.
  unfold libro. destruct (deref_lista (heap st) (movimientos self)) as [refs|];
    [|discriminate].
  cbn. eauto.
Qed.

Lemma refs_no_lista h r l refs ms :
  deref_lista h r = Some l →
  mapM (deref_movimiento h) refs = Some ms →
  r ∉ refs.
Proof.
  rewrite mapM_Some. intros Hl Hrefs Hin.
  destruct (proj1 (list_elem_of_lookup _ _) Hin) as [i Hi].
  destruct (Forall2_lookup_l _ _ _ _ _ Hrefs Hi) as (m & _ & Hm).
  by eapply deref_distintos.
Qed.

(** The ledger after an append of a new instance to the store's list. *)
Lemma libro_extendido self st refs ms m :
  deref_lista (heap st) (movimientos self) = Some refs →
  mapM (deref_movimiento (heap st)) refs = Some ms →
  let n := length (heap st) in
  let h := <[movimientos self := OLista (refs ++ [n])]>
             (heap st ++ [OMovimiento m]) in
  deref_lista h (movimientos self) = Some (refs ++ [n]) ∧
  mapM (deref_movimiento h) (refs ++ [n]) = Some (ms ++ [m]).
Proof.
  intros Hl Hrefs n h. pose proof (deref_lista_lt _ _ _ Hl) as Hlt.
  split.
  - unfold deref_lista, h. rewrite list_lookup_insert_eq; [done|].
    rewrite length_app. lia.
  - apply mapM_deref_snoc.
    + apply mapM_deref_frame; [done|]. by eapply refs_no_lista.
    + unfold deref_movimiento, h.
      rewrite list_lookup_insert_ne by (unfold n; lia).
      unfold n. by rewrite list_lookup_middle.
Qed.

Lemma fecha_o_hoy_run f st :
  fecha_o_hoy f st =
    (Ok match f with
        | Some s => if decide (s = "") then Py.isoformat (hoy st) else s
        | None => Py.isoformat (hoy st)
        end, st).
Proof.
  unfold fecha_o_hoy. destruct f as [s|]; [|reflexivity].
  destruct (decide (s = "")); reflexivity.
Qed.

(** What a call that passes both checks does: one new instance, appended
    to the store's list, and the file rewritten with the whole ledger. *)
Lemma agregar_run self st refs ms e :
  deref_lista (heap st) (movimientos self) = Some refs →
  mapM (deref_movimiento (heap st)) refs = Some ms →
  e_tipo e ∈ TIPOS →
  (e_monto e <=? 0)%float = false →
  agregar self e st =
    (Ok (length (heap st)),
     {| heap := <[movimientos self := OLista (refs ++ [length (heap st)])]>
                  (heap st ++ [OMovimiento (registrada (hoy st) e)]);
        archivos := <[db_path self :=
                        Documento (serializable (ms ++ [registrada (hoy st) e]))]>
                      (archivos st);
        hoy := hoy st |}).
Proof.
  intros Hl Hrefs Ht Hx. unfold agregar, agregar_movimiento.
  rewrite bool_decide_eq_false_2 by (by intros []).
  rewrite Hx.
  erewrite bind_Ok by apply fecha_o_hoy_run.
  erewrite bind_Ok by reflexivity.
  change (Build_Movimiento _ _ _ _ _) with (registrada (hoy st) e).
  pose proof (deref_lista_lt _ _ _ Hl) as Hlt.
  assert (Hl' : (heap st ++ [OMovimiento (registrada (hoy st) e)])
                  !! movimientos self = Some (OLista refs)).
  { rewrite lookup_app_l by done. unfold deref_lista in Hl.
    destruct (heap st !! movimientos self) as [[?|?]|]; congruence. }
  erewrite bind_Ok; last first.
  { unfold list_append. cbn [heap con_heap]. rewrite Hl'. reflexivity. }
  destruct (libro_extendido self st refs ms (registrada (hoy st) e) Hl Hrefs)
    as [Hl2 Hrefs2].
  erewrite bind_Ok; last first.
  { unfold _guardar. erewrite bind_Ok; last first.
    { rewrite entradas_run. unfold libro. cbn [heap con_heap].
      rewrite Hl2. cbn. rewrite Hrefs2. reflexivity. }
    reflexivity. }
  reflexivity.
Qed.

Lemma listar_run self st refs :
  deref_lista (heap st) (movimientos self) = Some refs →
  listar self st =
    (Ok (length (heap st)), con_heap (heap st ++ [OLista refs]) st).
Proof.
  intros Hl. unfold listar.
  erewrite bind_Ok by (rewrite leer_lista_run, Hl; reflexivity).
  reflexivity.
Qed.

Lemma deref_movimiento_app h h' r m :
  deref_movimiento h r = Some m → deref_movimiento (h ++ h') r = Some m.
Proof.
  intros Hm. pose proof (deref_movimiento_lt _ _ _ Hm).
  unfold deref_movimiento in *. by rewrite lookup_app_l.
Qed.

Lemma mapM_deref_app h h' refs ms :
  mapM (deref_movimiento h) refs = Some ms →
  mapM (deref_movimiento (h ++ h')) refs = Some ms.
Proof.
  rewrite !mapM_Some. intros Hrefs.
  eapply Forall2_impl; [exact Hrefs|].
  intros r m. apply deref_movimiento_app.
Qed.

Lemma deref_lista_app h h' r l :
  deref_lista h r = Some l → deref_lista (h ++ h') r = Some l.
Proof.
  intros Hl. pose proof (deref_lista_lt _ _ _ Hl).
  unfold deref_lista in *. by rewrite lookup_app_l.
Qed.

(** ** Floats: an amount above zero passes the check [monto <= 0] *)

Lemma positivo_pasa x : (0 <? x)%float = true → (x <=? 0)%float = false.
Proof.
  rewrite ltb_spec, leb_spec.
  change (Prim2SF 0) with (S754_zero false).
  unfold SFltb, SFleb, SFcompare.
  destruct (Prim2SF x) as [[]|[]| |[] m e]; cbn; congruence.
Qed.

Lemma TIPOS_spec t : t ∈ TIPOS ↔ t = "ingreso" ∨ t = "gasto".
Proof. unfold TIPOS. set_solver. Qed.

Lemma ingreso_en_TIPOS : "ingreso" ∈ TIPOS.
Proof. apply TIPOS_spec. by left. Qed.

Lemma gasto_en_TIPOS : "gasto" ∈ TIPOS.
Proof. apply TIPOS_spec. by right. Qed.

(** ** [str.strip] *)

(** What [lstrip] removes is white space, and what it leaves does not
    begin with white space. *)
Lemma lstrip_spec s :
  ∃ pre, s = pre +:+ Py.lstrip s
         ∧ forallb Py.isspace (String.list_ascii_of_string pre) = true
         ∧ match Py.lstrip s with
           | String c _ => Py.isspace c = false
           | EmptyString => True
           end.
Proof.
  induction s as [|c s (pre & Heq & Hpre & Hhead)]; cbn [Py.lstrip].
  - by exists "".
  - destruct (Py.isspace c) eqn:Hc.
    + exists (String c pre). cbn. rewrite Hc, Hpre.
      split; [|done].
      change (String c s = String c (pre +:+ Py.lstrip s)). by f_equal.
    + exists "". cbn. by rewrite Hc.
Qed.

Lemma rstrip_spec s :
  ∃ post, s = Py.rstrip s +:+ post
          ∧ forallb Py.isspace (String.list_ascii_of_string post) = true
          ∧ ∀ c, last (String.list_ascii_of_string (Py.rstrip s)) = Some c →
                 Py.isspace c = false.
Proof.
  induction s as [|c s (post & Heq & Hpost & Hlast)]; cbn [Py.rstrip].
  - by exists "".
  - destruct (Py.rstrip s) as [|c' r'] eqn:Hr.
    + change (s = post) in Heq. destruct (Py.isspace c) eqn:Hc.
      * exists (String c post). cbn. rewrite Hc, Hpost.
        split; [|done]. change (String c s = String c post). by f_equal.
      * exists post. split; [|split; [done|]].
        -- change (String c s = String c post). by f_equal.
        -- cbn. by intros ? [= <-].
    + exists post. split; [|split; [done|]].
      * change (String c s = String c (String c' r' +:+ post)). by f_equal.
      * intros c0 Hc0. apply Hlast. exact Hc0.
Qed.

Lemma rstrip_head c r :
  match Py.rstrip (String c r) with
  | EmptyString => True
  | String c' _ => c' = c
  end.
Proof. cbn. destruct (Py.rstrip r); [destruct (Py.isspace c)|]; done. Qed.

(** [strip] removes white space at both ends, and only that: the input is
    the result between two runs of white space, and the result neither
    begins nor ends with white space. *)
Lemma strip_spec s :
  ∃ pre post,
    s = pre +:+ Py.strip s +:+ post
    ∧ forallb Py.isspace (String.list_ascii_of_string pre) = true
    ∧ forallb Py.isspace (String.list_ascii_of_string post) = true
    ∧ (∀ c, head (String.list_ascii_of_string (Py.strip s)) = Some c →
            Py.isspace c = false)
    ∧ (∀ c, last (String.list_ascii_of_string (Py.strip s)) = Some c →
            Py.isspace c = false).
Proof.
  destruct (lstrip_spec s) as (pre & Hs & Hpre & Hhead).
  destruct (rstrip_spec (Py.lstrip s)) as (post & Ht & Hpost & Hlast).
  exists pre, post. unfold Py.strip.
  split; [by rewrite <- Ht|]. split; [done|]. split; [done|].
  split; [|exact Hlast].
  destruct (Py.lstrip s) as [|c r]; [by intros c|].
  pose proof (rstrip_head c r) as Hc.
  destruct (Py.rstrip (String c r)) as [|c' r']; [by intros c0|].
  subst c'. cbn. by intros c0 [= <-].
Qed.

Example strip_ejemplos :
  Py.strip "  comida rapida  " = "comida rapida"
  ∧ Py.strip "  " = ""
  ∧ Py.str_or (Py.strip "  ") "general" = "general".
Proof. repeat split. Qed.

(** ** [date.isoformat] *)

Lemma es_digito_digito n : es_digito (Py.digito n) = true.
Proof.
  unfold Py.digito, es_digito.
  pose proof (N.mod_upper_bound n 10 ltac:(done)) as Hlt.
  generalize dependent (n `mod` 10)%N. intros k Hlt.
  rewrite N_ascii_embedding by lia.
  apply andb_true_intro. split; apply N.leb_le; lia.
Qed.

Lemma formato_4 n : (n < 10000)%N → Py.formato_d 4 n = cuatro n.
Proof.
  intros Hn.
  assert (Hall : forallb (λ k, bool_decide (Py.formato_d 4 k = cuatro k))
                   (N.of_nat <$> seq 0 (N.to_nat 10000)) = true)
    by (vm_compute; reflexivity).
  rewrite forallb_forall in Hall.
  assert (Hin : In n (N.of_nat <$> seq 0 (N.to_nat 10000))).
  { apply in_map_iff. exists (N.to_nat n). split; [lia|]. apply in_seq. lia. }
  apply Hall in Hin. by apply bool_decide_eq_true in Hin.
Qed.

Lemma formato_2 n : (n < 100)%N → Py.formato_d 2 n = dos n.
Proof.
  intros Hn.
  assert (Hall : forallb (λ k, bool_decide (Py.formato_d 2 k = dos k))
                   (N.of_nat <$> seq 0 (N.to_nat 100)) = true)
    by (vm_compute; reflexivity).
  rewrite forallb_forall in Hall.
  assert (Hin : In n (N.of_nat <$> seq 0 (N.to_nat 100))).
  { apply in_map_iff. exists (N.to_nat n). split; [lia|]. apply in_seq. lia. }
  apply Hall in Hin. by apply bool_decide_eq_true in Hin.
Qed.

(** The date of a [datetime.date] prints in the form [YYYY-MM-DD]. *)
Lemma isoformat_forma d : Py.date_ok d → forma_iso (Py.isoformat d) = true.
Proof.
  intros (Hy & Hm & Hd). unfold Py.isoformat.
  rewrite formato_4 by lia. rewrite !formato_2 by lia.
  unfold forma_iso, cuatro, dos.
  cbv -[es_digito Py.digito N.div]. by rewrite !es_digito_digito.
Qed.

Example isoformat_ejemplos :
  Py.isoformat reloj = "2024-05-07"
  ∧ Py.isoformat {| Py.year := 987; Py.month := 12; Py.day := 31 |}
    = "0987-12-31".
Proof. split; reflexivity. Qed.

Lemma isoformat_no_vacio d : Py.date_ok d → Py.isoformat d ≠ "".
Proof.
  intros Hd Heq. pose proof (isoformat_forma d Hd) as H.
  rewrite Heq in H. discriminate H.
Qed.

(** ** [agregar_movimiento] *)

(** A successful call, in terms of what can be read afterwards. *)
Lemma agregar_ok self st ms e :
  libro self st = Some ms →
  e_tipo e ∈ TIPOS →
  (e_monto e <=? 0)%float = false →
  ∃ st1 refs,
    agregar self e st = (Ok (length (heap st)), st1)
    ∧ deref_lista (heap st1) (movimientos self) = Some (refs ++ [length (heap st)])
    ∧ mapM (deref_movimiento (heap st1)) (refs ++ [length (heap st)])
      = Some (ms ++ [registrada (hoy st) e])
    ∧ deref_movimiento (heap st1) (length (heap st)) = Some (registrada (hoy st) e)
    ∧ archivos st1
      = <[db_path self := Documento (serializable (ms ++ [registrada (hoy st) e]))]>
          (archivos st)
    ∧ hoy st1 = hoy st.
Proof.
  intros Hlibro Ht Hx.
  destruct (libro_refs _ _ _ Hlibro) as (refs & Hl & Hrefs).
  eexists _, refs. split; [by apply agregar_run|]. cbn [heap archivos hoy].
  destruct (libro_extendido self st refs ms (registrada (hoy st) e) Hl Hrefs)
    as [Hl2 Hrefs2].
  split; [done|]. split; [done|]. split; [|done].
  rewrite mapM_Some in Hrefs2.
  apply Forall2_app_inv_l in Hrefs2 as (? & ? & _ & Hn & Heq).
  apply Forall2_cons_inv_l in Hn as (m & ? & Hm & Hnil & ->).
  apply Forall2_nil_inv_l in Hnil as ->.
  apply app_inj_tail in Heq as [_ <-]. exact Hm.
Qed.

Lemma libro_tras_agregar self st ms e st1 r :
  libro self st = Some ms →
  e_tipo e ∈ TIPOS →
  (e_monto e <=? 0)%float = false →
  agregar self e st = (Ok r, st1) →
  libro self st1 = Some (ms ++ [registrada (hoy st) e]).
Proof.
  intros Hlibro Ht Hx Hrun.
  destruct (agregar_ok self st ms e Hlibro Ht Hx)
    as (st1' & refs & Hrun' & Hl & Hrefs & _).
  rewrite Hrun in Hrun'. injection Hrun' as _ <-.
  unfold libro. rewrite Hl. cbn. exact Hrefs.
Qed.

(** C3. A call with a kind outside {ingreso, gasto}, or with an amount of
    zero or below, raises and leaves the whole state, heap and files, as
    it was: nothing is appended and nothing is written. The kind is
    checked first, so the error is [InvalidKind] whenever the kind is
    outside the set, whatever the amount, and [InvalidAmount] when the
    kind is in the set and the amount is zero or below. *)
Theorem agregar_rechaza self st tipo_ monto_ categoria_ descripcion_ fecha_ :
  tipo_ ∉ TIPOS ∨ (monto_ <=? 0)%float = true →
  agregar_movimiento self tipo_ monto_ categoria_ descripcion_ fecha_ st
    = (Raise (if decide (tipo_ ∈ TIPOS) then InvalidAmount else InvalidKind), st).
Proof.
  intros Hbad. unfold agregar_movimiento.
  destruct (decide (tipo_ ∈ TIPOS)) as [Hin|Hout].
  - rewrite bool_decide_eq_false_2 by (by intros []).
    destruct Hbad as [? | ->]; done.
  - by rewrite bool_decide_eq_true_2.
Qed.

Lemma agregar_rechaza_witness :
  agregar_movimiento gestor0 "gasto" 0 "food" "" None (estado_de libro_resumen)
    = (Raise InvalidAmount, estado_de libro_resumen)
  ∧ agregar_movimiento gestor0 "ahorro" 10 "food" "" None (estado_de libro_resumen)
    = (Raise InvalidKind, estado_de libro_resumen)
  ∧ agregar_movimiento gestor0 "ahorro" (-3) "food" "" None (estado_de libro_resumen)
    = (Raise InvalidKind, estado_de libro_resumen).
Proof.
  split; [|split].
  - apply (agregar_rechaza gestor0 (estado_de libro_resumen) "gasto" 0 "food" "" None).
    right. reflexivity.
  - apply (agregar_rechaza gestor0 (estado_de libro_resumen) "ahorro" 10 "food" "" None).
    left. by vm_compute.
  - apply (agregar_rechaza gestor0 (estado_de libro_resumen) "ahorro" (-3)
             "food" "" None).
    right. reflexivity.
Defined.

(** The two [raise] statements are the only source of an exception. *)
(** C8, the case the claim misses: the empty string is a value a caller
    can supply for the date, and the entry then carries the date of the
    day, not the empty string. *)
Lemma fecha_vacia_no_literal :
  ∃ creado st1 m,
    agregar_movimiento gestor0 "gasto" 10 "food" "" (Some "")
      (estado_de libro_resumen) = (Ok creado, st1)
    ∧ deref_movimiento (heap st1) creado = Some m
    ∧ fecha m = "2024-05-07"
    ∧ fecha m ≠ "".
Proof.
  eexists _, _, _. split; [vm_compute; reflexivity|].
  split; [vm_compute; reflexivity|]. split; [reflexivity|discriminate].
Qed.

(** C8, as amended. The entry created by a valid call carries the supplied
    date verbatim when one is supplied and is not the empty string; when
    none is supplied, or the empty string is, it carries the current date
    in the form YYYY-MM-DD. *)
Theorem fecha_registrada self st ms tipo_ monto_ categoria_ descripcion_ fecha_ :
  libro self st = Some ms →
  tipo_ ∈ TIPOS →
  (0 <? monto_)%float = true →
  Py.date_ok (hoy st) →
  ∃ creado st1 m,
    agregar_movimiento self tipo_ monto_ categoria_ descripcion_ fecha_ st
      = (Ok creado, st1)
    ∧ deref_movimiento (heap st1) creado = Some m
    ∧ (∀ s, fecha_ = Some s → s ≠ "" → fecha m = s)
    ∧ (fecha_ = None ∨ fecha_ = Some "" →
       fecha m = Py.isoformat (hoy st) ∧ forma_iso (fecha m) = true).
Proof.
  intros Hlibro Ht Hx Hhoy. apply positivo_pasa in Hx.
  set (e := {| e_tipo := tipo_; e_monto := monto_; e_categoria := categoria_;
               e_descripcion := descripcion_; e_fecha := fecha_ |}).
  destruct (agregar_ok self st ms e Hlibro Ht Hx)
    as (st1 & refs & Hrun & _ & _ & Hm & _).
  exists (length (heap st)), st1, (registrada (hoy st) e).
  split; [exact Hrun|]. split; [exact Hm|]. cbn. split.
  - intros s -> Hs. by destruct (decide (s = "")).
  - intros [-> | ->]; cbn; (split; [reflexivity | by apply isoformat_forma]).
Qed.

Lemma fecha_registrada_witness :
  ∃ creado st1 m,
    agregar_movimiento gestor0 "gasto" 10 "food" "" None
      (estado_de libro_resumen) = (Ok creado, st1)
    ∧ deref_movimiento (heap st1) creado = Some m
    ∧ (∀ s, @None string = Some s → s ≠ "" → fecha m = s)
    ∧ (@None string = None ∨ @None string = Some "" →
       fecha m = Py.isoformat (hoy (estado_de libro_resumen))
       ∧ forma_iso (fecha m) = true).
Proof.
  apply (fecha_registrada gestor0 (estado_de libro_resumen) libro_resumen
           "gasto" 10 "food" "" None).
  - reflexivity.
  - exact gasto_en_TIPOS.
  - reflexivity.
  - vm_compute. repeat split; discriminate.
Defined.

(** ** The queries leave the store alone *)

Lemma resumen_estado self st : (resumen self st).2 = st.
Proof.
  unfold resumen. unfold mbind at 1. unfold M_bind at 1.
  rewrite entradas_run. destruct (libro self st) as [ms|] eqn:Hlibro;
    [|reflexivity].
  unfold mbind at 1. unfold M_bind at 1.
  rewrite entradas_run, Hlibro. reflexivity.
Qed.

Lemma resumen_por_categoria_estado self tipo_ st :
  (resumen_por_categoria self tipo_ st).2 = st.
Proof.
  unfold resumen_por_categoria.
  destruct (bool_decide (tipo_ ∉ TIPOS)); [reflexivity|].
  unfold mbind at 1. unfold M_bind at 1.
  rewrite entradas_run. by destruct (libro self st).
Qed.

(** A new list object is no instance: what the references of the store
    reach is the same with and without it. *)
Lemma deref_movimiento_nueva_lista h l r :
  deref_movimiento (h ++ [OLista l]) r = deref_movimiento h r.
Proof.
  unfold deref_movimiento.
  destruct (decide (r < length h)) as [Hlt|Hge].
  - by rewrite lookup_app_l.
  - rewrite (lookup_ge_None_2 h r) by lia.
    destruct (decide (r = length h)) as [->|Hne].
    + by rewrite list_lookup_middle.
    + rewrite lookup_ge_None_2; [done|]. rewrite length_app. cbn. lia.
Qed.

Lemma listar_estado self st :
  listar self st =
    match deref_lista (heap st) (movimientos self) with
    | Some refs =>
        (Ok (length (heap st)), con_heap (heap st ++ [OLista refs]) st)
    | None => (SinModelo Inalcanzable, st)
    end.
Proof.
  unfold listar. unfold mbind at 1. unfold M_bind at 1.
  rewrite leer_lista_run.
  by destruct (deref_lista (heap st) (movimientos self)).
Qed.

Lemma listar_libro self st : libro self (listar self st).2 = libro self st.
Proof.
  rewrite listar_estado.
  destruct (deref_lista (heap st) (movimientos self)) as [refs|] eqn:Hl;
    [|reflexivity].
  unfold libro. cbn [snd heap con_heap].
  rewrite (deref_lista_app _ _ _ _ Hl), Hl. cbn.
  apply mapM_deref_cong. intros r _. apply deref_movimiento_nueva_lista.
Qed.

Lemma descartar_estado {A} (m : M A) st :
  ((m ≫= λ _, mret ()) st).2 = (m st).2.
Proof.
  unfold mbind, M_bind. by destruct (m st) as [[?|?|?] ?].
Qed.

(** C9. [resumen], [resumen_por_categoria] and [listar] are read-only:
    the first two leave the whole state as it was, whatever they return;
    [listar] adds one list object to the heap and changes no object that
    was there, so the store's list, its entries and every file are as
    before. Of the public operations only [agregar_movimiento] can change
    the ledger or a file. *)
Theorem consultas_no_mutan self st :
  (resumen self st).2 = st
  ∧ (∀ tipo_, (resumen_por_categoria self tipo_ st).2 = st)
  ∧ (heap st `prefix_of` heap (listar self st).2
     ∧ deref_lista (heap (listar self st).2) (movimientos self)
       = deref_lista (heap st) (movimientos self)
     ∧ libro self (listar self st).2 = libro self st
     ∧ archivos (listar self st).2 = archivos st)
  ∧ (∀ op,
       match op with
       | OpAgregar _ _ _ _ _ => True
       | _ =>
           libro self (ejecutar self op st).2 = libro self st
           ∧ archivos (ejecutar self op st).2 = archivos st
       end).
Proof.
  assert (Hlistar : archivos (listar self st).2 = archivos st).
  { rewrite listar_estado.
    by destruct (deref_lista (heap st) (movimientos self)). }
  split; [apply resumen_estado|].
  split; [intros t; apply resumen_por_categoria_estado|].
  split.
  - split; [|split; [|split; [apply listar_libro | exact Hlistar]]].
    + rewrite listar_estado.
      destruct (deref_lista (heap st) (movimientos self)); cbn;
        [by apply prefix_app_r | done].
    + rewrite listar_estado.
      destruct (deref_lista (heap st) (movimientos self)) as [refs|] eqn:Hl;
        cbn; [|exact Hl].
      rewrite (deref_lista_app _ _ _ _ Hl). done.
  - intros [t x c d f| |t|]; [exact I| | |]; cbn [ejecutar];
      rewrite descartar_estado.
    + by rewrite resumen_estado.
    + by rewrite resumen_por_categoria_estado.
    + split; [apply listar_libro | exact Hlistar].
Qed.

(** ** What [listar] returns *)

(** The files after a call of [agregar_movimiento] depend on the state
    only through the ledger, the files and the clock. *)
Lemma agregar_archivos self st ms e :
  libro self st = Some ms →
  archivos (agregar self e st).2 =
    if bool_decide (e_tipo e ∉ TIPOS) then archivos st
    else if (e_monto e <=? 0)%float then archivos st
    else <[db_path self :=
             Documento (serializable (ms ++ [registrada (hoy st) e]))]>
           (archivos st).
Proof.
  intros Hlibro.
  destruct (bool_decide (e_tipo e ∉ TIPOS)) eqn:Ht.
  - unfold agregar, agregar_movimiento. by rewrite Ht.
  - destruct (e_monto e <=? 0)%float eqn:Hx.
    + unfold agregar, agregar_movimiento. by rewrite Ht, Hx.
    + apply bool_decide_eq_false in Ht.
      destruct (agregar_ok self st ms e Hlibro) as (st1 & refs & -> & H);
        [by apply dec_stable | done |].
      destruct H as (_ & _ & _ & Ha & _). exact Ha.
Qed.

(** Restructuring the list [listar] returned reaches neither the store's
    list nor any instance. *)
Lemma reestructurar_copia self st refs ms elementos :
  deref_lista (heap st) (movimientos self) = Some refs →
  mapM (deref_movimiento (heap st)) refs = Some ms →
  let h := <[length (heap st) := OLista elementos]> (heap st ++ [OLista refs]) in
  reestructurar (length (heap st)) elementos
      (con_heap (heap st ++ [OLista refs]) st)
    = (Ok (), con_heap h st)
  ∧ deref_lista h (movimientos self) = Some refs
  ∧ mapM (deref_movimiento h) refs = Some ms.
Proof.
  intros Hl Hrefs h. pose proof (deref_lista_lt _ _ _ Hl) as Hlt.
  split; [|split].
  - unfold reestructurar. cbn [heap con_heap].
    by rewrite list_lookup_middle.
  - unfold deref_lista, h. rewrite list_lookup_insert_ne by lia.
    rewrite lookup_app_l by done. exact Hl.
  - apply mapM_deref_frame; [done|]. intros Hin.
    rewrite mapM_Some in Hrefs.
    destruct (proj1 (list_elem_of_lookup _ _) Hin) as [i Hi].
    destruct (Forall2_lookup_l _ _ _ _ _ Hrefs Hi) as (m & _ & Hm).
    apply deref_movimiento_lt in Hm. lia.
Qed.

(** C7, the case the claim misses: an element of the returned list is
    the store's own instance. Assigning to its [monto] changes the ledger
    the store holds, and the next [agregar_movimiento] writes the changed
    amount to the file. *)
Lemma listar_comparte_instancias :
  ∃ lst st1 refs r st2,
    listar gestor0 (estado_de libro_resumen) = (Ok lst, st1)
    ∧ deref_lista (heap st1) lst = Some refs
    ∧ refs !! 0 = Some r
    ∧ asignar r (mov "ingreso" 999 "general") st1 = (Ok (), st2)
    ∧ libro gestor0 st1 = Some libro_resumen
    ∧ libro gestor0 st2
      = Some [mov "ingreso" 999 "general"; mov "gasto" 40 "general";
              mov "gasto" 10 "general"]
    ∧ libro gestor0 st2 ≠ libro gestor0 st1
    ∧ archivos (agregar_movimiento gestor0 "gasto" 1 "otros" "" None st2).2
        !! DEFAULT_DB_PATH
      ≠ archivos (agregar_movimiento gestor0 "gasto" 1 "otros" "" None st1).2
        !! DEFAULT_DB_PATH.
Proof.
  eexists _, _, _, _, _.
  split; [vm_compute; reflexivity|].
  split; [vm_compute; reflexivity|].
  split; [vm_compute; reflexivity|].
  split; [vm_compute; reflexivity|].
  split; [vm_compute; reflexivity|].
  split; [vm_compute; reflexivity|].
  split.
  - vm_compute. intros [=].
  - vm_compute. intros [=].
Qed.

(** C7, as amended. [listar] returns the entries of the ledger, in
    insertion order, in a list object of its own: whatever the caller
    makes of the elements of that list, the store's list, the ledger and
    the files are as before, and so is what any later
    [agregar_movimiento] writes. (The elements are the store's own
    instances.) *)
Theorem listar_copia_la_lista self st ms :
  libro self st = Some ms →
  ∃ lst st1 refs,
    listar self st = (Ok lst, st1)
    ∧ deref_lista (heap st1) lst = Some refs
    ∧ mapM (deref_movimiento (heap st1)) refs = Some ms
    ∧ deref_lista (heap st) (movimientos self) = Some refs
    ∧ lst ≠ movimientos self
    ∧ ∀ elementos, ∃ st2,
        reestructurar lst elementos st1 = (Ok (), st2)
        ∧ deref_lista (heap st2) lst = Some elementos
        ∧ deref_lista (heap st2) (movimientos self) = Some refs
        ∧ libro self st2 = Some ms
        ∧ archivos st2 = archivos st
        ∧ ∀ e, archivos (agregar self e st2).2
               = archivos (agregar self e st1).2.
Proof.
  intros Hlibro. destruct (libro_refs _ _ _ Hlibro) as (refs & Hl & Hrefs).
  pose proof (deref_lista_lt _ _ _ Hl) as Hlt.
  exists (length (heap st)), (con_heap (heap st ++ [OLista refs]) st), refs.
  split; [by apply listar_run|]. cbn [heap con_heap].
  split. { unfold deref_lista. by rewrite list_lookup_middle. }
  split; [by apply mapM_deref_app|].
  split; [exact Hl|]. split; [lia|].
  intros elementos.
  destruct (reestructurar_copia self st refs ms elementos Hl Hrefs)
    as (Hrun & Hl2 & Hrefs2).
  eexists. split; [exact Hrun|]. cbn [heap con_heap archivos].
  assert (Hlibro2 : libro self
            (con_heap (<[length (heap st) := OLista elementos]>
                         (heap st ++ [OLista refs])) st) = Some ms).
  { unfold libro. cbn [heap con_heap]. rewrite Hl2. exact Hrefs2. }
  assert (Hlibro1 : libro self (con_heap (heap st ++ [OLista refs]) st)
                    = Some ms).
  { unfold libro. cbn [heap con_heap].
    rewrite (deref_lista_app _ _ _ _ Hl). by apply mapM_deref_app. }
  split.
  { unfold deref_lista. rewrite list_lookup_insert_eq; [done|].
    rewrite length_app. cbn. lia. }
  split; [exact Hl2|]. split; [exact Hlibro2|]. split; [reflexivity|].
  intros e.
  rewrite (agregar_archivos _ _ ms e Hlibro2).
  rewrite (agregar_archivos _ _ ms e Hlibro1). reflexivity.
Qed.

Lemma listar_copia_la_lista_witness :
  ∃ lst st1 refs,
    listar gestor0 (estado_de libro_resumen) = (Ok lst, st1)
    ∧ deref_lista (heap st1) lst = Some refs
    ∧ mapM (deref_movimiento (heap st1)) refs = Some libro_resumen
    ∧ deref_lista (heap (estado_de libro_resumen)) (movimientos gestor0)
      = Some refs
    ∧ lst ≠ movimientos gestor0
    ∧ ∀ elementos, ∃ st2,
        reestructurar lst elementos st1 = (Ok (), st2)
        ∧ deref_lista (heap st2) lst = Some elementos
        ∧ deref_lista (heap st2) (movimientos gestor0) = Some refs
        ∧ libro gestor0 st2 = Some libro_resumen
        ∧ archivos st2 = archivos (estado_de libro_resumen)
        ∧ ∀ e, archivos (agregar gestor0 e st2).2
               = archivos (agregar gestor0 e st1).2.
Proof.
  apply (listar_copia_la_lista gestor0 (estado_de libro_resumen) libro_resumen).
  reflexivity.
Defined.

(** ** Construction: [_cargar] *)

Lemma Movimiento_kwargs_mal_formado item :
  mal_formado item → Movimiento_kwargs item = None.
Proof.
  destruct item as [| | | | | |kv]; try reflexivity.
  cbn [mal_formado Movimiento_kwargs].
  destruct (forallb (λ k, bool_decide (k ∈ CAMPOS)) (map fst kv)) eqn:Hkeys;
    [|reflexivity].
  intros [(c & Hc & Hget) | (k & Hk & Hout)].
  - unfold CAMPOS in Hc.
    repeat (apply elem_of_cons in Hc as [-> | Hc]);
      [..|by apply elem_of_nil in Hc]; rewrite Hget; cbn;
      repeat (match goal with
              | |- context [Py.dict_get kv ?x] => destruct (Py.dict_get kv x)
              end; cbn); reflexivity.
  - rewrite forallb_forall in Hkeys.
    apply list_elem_of_In, Hkeys, bool_decide_eq_true in Hk. done.
Qed.

Lemma mapM_kwargs_mal_formado items :
  Exists mal_formado items → mapM Movimiento_kwargs items = None.
Proof.
  intros Hex. destruct (mapM Movimiento_kwargs items) as [args|] eqn:Hm;
    [|reflexivity].
  assert (Hall : Forall (is_Some ∘ Movimiento_kwargs) items)
    by (apply mapM_is_Some; eauto).
  apply Exists_exists in Hex as (item & Hin & Hbad).
  rewrite Forall_forall in Hall. destruct (Hall item Hin) as [a Ha].
  rewrite (Movimiento_kwargs_mal_formado item Hbad) in Ha. discriminate Ha.
Qed.

Lemma init_run path st :
  __init__ path st =
    _cargar {| db_path := path; movimientos := length (heap st) |}
      (con_heap (heap st ++ [OLista []]) st).
Proof. reflexivity. Qed.

(** Construction from a path with no file. *)
Lemma init_sin_archivo path st :
  archivos st !! path = None →
  ∃ g st', __init__ path st = (Ok g, st')
           ∧ db_path g = path
           ∧ libro g st' = Some []
           ∧ archivos st' = archivos st.
Proof.
  rewrite init_run. unfold _cargar, exists_.
  intros Hno. eexists _, _.
  split.
  { unfold mbind at 1. unfold M_bind at 1. cbn [archivos con_heap db_path].
    rewrite Hno. rewrite bool_decide_eq_false_2 by (by intros [? ?]).
    reflexivity. }
  split; [reflexivity|]. split; [|reflexivity].
  unfold libro, deref_lista. cbn [heap con_heap movimientos].
  rewrite length_app. cbn [length].
  replace (length (heap st) + 1) with (length (heap st ++ [OLista []]))
    by (rewrite length_app; reflexivity).
  by rewrite list_lookup_middle.
Qed.

(** ** The UTF-8 codec on reading *)

Lemma entre_spec a b n : entre a b n = true ↔ (a ≤ n ∧ n ≤ b)%N.
Proof. unfold entre. rewrite andb_true_iff, !N.leb_le. done. Qed.

Lemma entre_false a b n : entre a b n = false ↔ (n < a ∨ b < n)%N.
Proof.
  unfold entre. rewrite andb_false_iff, !N.leb_gt. done.
Qed.

Ltac rangos :=
  repeat match goal with
  | |- context [entre ?a ?b ?n] =>
      let H := fresh "H" in
      destruct (entre a b n) eqn:H;
      [apply entre_spec in H | apply entre_false in H]
  | |- context [(?a =? ?b)%N] =>
      let H := fresh "H" in
      destruct (N.eqb_spec a b) as [H|H]
  | |- context [(?a <? ?b)%N] =>
      let H := fresh "H" in
      destruct (N.ltb_spec a b) as [H|H]
  | |- context [(?a <=? ?b)%N] =>
      let H := fresh "H" in
      destruct (N.leb_spec a b) as [H|H]
  end.

Lemma div64 c : (c = 64 * (c / 64) + c mod 64 ∧ c mod 64 < 64)%N.
Proof. split; [apply N.div_mod; lia | apply N.mod_lt; lia]. Qed.

(** The automaton reads the encoding of a scalar value from [U0] to [U0]. *)
Lemma utf8_paso_de c bs :
  escalar c = true →
  fold_left utf8_paso (utf8_de c ++ bs) U0 = fold_left utf8_paso bs U0.
Proof.
  unfold escalar. rewrite andb_true_iff, N.leb_le, negb_true_iff, entre_false.
  intros [Hmax Hsur]. unfold utf8_de.
  destruct (div64 c) as [Hc Hr].
  destruct (div64 (c / 64)) as [Hc1 Hr1].
  destruct (div64 (c / 64 / 64)) as [Hc2 Hr2].
  set (q1 := (c / 64)%N) in *. set (r1 := (c mod 64)%N) in *.
  set (q2 := (q1 / 64)%N) in *. set (r2 := (q1 mod 64)%N) in *.
  set (q3 := (q2 / 64)%N) in *. set (r3 := (q2 mod 64)%N) in *.
  destruct (N.ltb_spec c 128); [|destruct (N.ltb_spec c 2048);
    [|destruct (N.ltb_spec c 65536)]];
    repeat (progress (cbn [app fold_left utf8_paso]; rangos);
            try (exfalso; lia)); reflexivity.
Qed.

Lemma utf8_paso_mal bs : fold_left utf8_paso bs UMal = UMal.
Proof. by induction bs. Qed.

Lemma div64_mul q r : (r < 64)%N → ((64 * q + r) / 64 = q)%N.
Proof.
  intros Hr. symmetry. apply (N.div_unique _ _ _ r); [exact Hr | reflexivity].
Qed.

Lemma mod64_mul q r : (r < 64)%N → ((64 * q + r) mod 64 = r)%N.
Proof.
  intros Hr. symmetry. apply (N.mod_unique _ _ q); [exact Hr | reflexivity].
Qed.

(** A state that waits for a byte of one range: the byte is there, it is
    in the range, and the run goes on from the next state. *)
Lemma utf8_paso_sigue q lo hi q' bs :
  q ≠ U0 →
  (∀ b, utf8_paso q b = if entre lo hi b then q' else UMal) →
  fold_left utf8_paso bs q = U0 →
  ∃ b bs', bs = b :: bs' ∧ (lo ≤ b ≤ hi)%N
           ∧ fold_left utf8_paso bs' q' = U0.
Proof.
  intros Hq Hpaso Hrun. destruct bs as [|b bs]; [done|].
  cbn [fold_left] in Hrun. rewrite Hpaso in Hrun.
  destruct (entre lo hi b) eqn:Hb.
  - apply entre_spec in Hb. by exists b, bs.
  - by rewrite utf8_paso_mal in Hrun.
Qed.

Ltac sigue H q lo hi q' b Hb :=
  apply (utf8_paso_sigue q lo hi q') in H as (b & ? & -> & Hb & H);
  [|discriminate|reflexivity].

Ltac sigue1 H b Hb := sigue H U1 128%N 191%N U0 b Hb.
Ltac sigue2 H b Hb b' Hb' := sigue H U2 128%N 191%N U1 b Hb; sigue1 H b' Hb'.

(** What the automaton reads from [U0] to [U0] is a sequence of encodings
    of scalar values. *)
Lemma utf8_paso_inv n : ∀ bs,
  length bs ≤ n →
  fold_left utf8_paso bs U0 = U0 →
  ∃ cs, forallb escalar cs = true ∧ bs = concat (utf8_de <$> cs).
Proof.
  induction n as [|n IH]; intros bs Hn Hrun.
  { destruct bs; [|cbn in Hn; lia]. by exists []. }
  destruct bs as [|b bs]; [by exists []|].
  cbn [fold_left] in Hrun. cbn [length] in Hn.
  cbn [utf8_paso] in Hrun. revert Hrun. rangos; intros Hrun;
    try (by rewrite utf8_paso_mal in Hrun).
  all: match type of Hrun with
       | fold_left _ _ U0 = _ => idtac
       | fold_left _ _ U1 = _ => sigue1 Hrun b2 Hb2
       | fold_left _ _ U2 = _ => sigue2 Hrun b2 Hb2 b3 Hb3
       | fold_left _ _ UE0 = _ =>
           sigue Hrun UE0 160%N 191%N U1 b2 Hb2; sigue1 Hrun b3 Hb3
       | fold_left _ _ UED = _ =>
           sigue Hrun UED 128%N 159%N U1 b2 Hb2; sigue1 Hrun b3 Hb3
       | fold_left _ _ U3 = _ =>
           sigue Hrun U3 128%N 191%N U2 b2 Hb2; sigue2 Hrun b3 Hb3 b4 Hb4
       | fold_left _ _ UF0 = _ =>
           sigue Hrun UF0 144%N 191%N U2 b2 Hb2; sigue2 Hrun b3 Hb3 b4 Hb4
       | fold_left _ _ UF4 = _ =>
           sigue Hrun UF4 128%N 143%N U2 b2 Hb2; sigue2 Hrun b3 Hb3 b4 Hb4
       end.
  all: cbn [length] in Hn.
  all: match type of Hrun with
       | fold_left _ ?l U0 = _ =>
           destruct (IH l ltac:(lia) Hrun) as (cs & Hcs & ->)
       end.
  all: match goal with
       | |- ∃ _, _ ∧ ?b :: ?b2 :: ?b3 :: ?b4 :: concat _ = _ =>
           exists ((64 * (64 * (64 * (b - 240) + (b2 - 128)) + (b3 - 128))
                    + (b4 - 128))%N :: cs)
       | |- ∃ _, _ ∧ ?b :: ?b2 :: ?b3 :: concat _ = _ =>
           exists ((64 * (64 * (b - 224) + (b2 - 128)) + (b3 - 128))%N :: cs)
       | |- ∃ _, _ ∧ ?b :: ?b2 :: concat _ = _ =>
           exists ((64 * (b - 192) + (b2 - 128))%N :: cs)
       | |- ∃ _, _ ∧ ?b :: concat _ = _ => exists (b :: cs)
       end.
  all: cbn [forallb fmap list_fmap concat]; rewrite Hcs, andb_true_r.
  all: split;
    [ unfold escalar, entre;
      rewrite andb_true_iff, negb_true_iff, andb_false_iff, !N.leb_le,
        !N.leb_gt; lia
    | unfold utf8_de; rangos; try (exfalso; lia);
      repeat ((rewrite div64_mul by lia) || (rewrite mod64_mul by lia));
      cbn [app]; repeat f_equal; lia ].
Qed.

Lemma utf8_valido_spec bytes : utf8_valido bytes = true ↔ es_utf8 bytes.
Proof.
  unfold utf8_valido, es_utf8.
  generalize (N_of_ascii <$> String.list_ascii_of_string bytes). intros bs.
  split.
  - intros H. apply (utf8_paso_inv (length bs)); [done|].
    by destruct (fold_left utf8_paso bs U0).
  - intros (cs & Hcs & ->).
    assert (fold_left utf8_paso (concat (utf8_de <$> cs)) U0 = U0) as ->;
      [|done].
    induction cs as [|c cs IH]; [done|].
    cbn [forallb] in Hcs. apply andb_true_iff in Hcs as [Hc Hcs].
    cbn [fmap list_fmap concat]. rewrite utf8_paso_de by done. by apply IH.
Qed.



(** ** Writing and reading back *)

Lemma kwargs_asdict m :
  Movimiento_kwargs (Py.JObj (asdict m)) = Some (argumentos_de m).
Proof. reflexivity. Qed.

Lemma anotado_argumentos_de m : anotado (argumentos_de m) = Some m.
Proof. by destruct m. Qed.

Lemma mapM_kwargs_serializable ms :
  mapM Movimiento_kwargs ((λ m, Py.JObj (asdict m)) <$> ms)
    = Some (argumentos_de <$> ms).
Proof.
  apply mapM_Some. apply Forall2_fmap, Forall_Forall2_diag, Forall_forall.
  intros m _. apply kwargs_asdict.
Qed.

Lemma mapM_anotado_argumentos ms :
  mapM anotado (argumentos_de <$> ms) = Some ms.
Proof.
  apply mapM_Some. apply Forall2_fmap_l, Forall_Forall2_diag, Forall_forall.
  intros m _. apply anotado_argumentos_de.
Qed.

Lemma mapM_nuevo ms st :
  mapM (λ m, nuevo (OMovimiento m)) ms st =
    (Ok (seq (length (heap st)) (length ms)),
     con_heap (heap st ++ (OMovimiento <$> ms)) st).
Proof.
  revert st. induction ms as [|m ms IH]; intros st.
  - cbn. rewrite app_nil_r. by destruct st.
  - cbn [mapM]. unfold mbind at 1. unfold M_bind at 1.
    unfold nuevo at 1. unfold mbind at 1. unfold M_bind at 1.
    rewrite IH. cbn [heap con_heap mret M_ret].
    rewrite length_app. cbn [length fmap list_fmap].
    rewrite <- app_assoc. cbn [app].
    replace (length (heap st) + 1) with (S (length (heap st))) by lia.
    reflexivity.
Qed.

Lemma mapM_deref_seq h ms h' :
  mapM (deref_movimiento (h ++ (OMovimiento <$> ms) ++ h'))
    (seq (length h) (length ms)) = Some ms.
Proof.
  apply mapM_Some, Forall2_same_length_lookup_2.
  - by rewrite length_seq.
  - intros i r m Hr Hm. apply lookup_seq in Hr as [-> Hi].
    unfold deref_movimiento.
    rewrite lookup_app_r by lia.
    replace (length h + i - length h) with i by lia.
    rewrite lookup_app_l by (rewrite length_fmap; lia).
    by rewrite list_lookup_fmap, Hm.
Qed.

(** Construction from a file that holds what [_guardar] wrote for the
    ledger [ms] gives a store whose ledger is [ms]. *)
Lemma init_serializable path st ms :
  archivos st !! path = Some (Documento (serializable ms)) →
  ∃ g st', __init__ path st = (Ok g, st')
           ∧ db_path g = path
           ∧ libro g st' = Some ms
           ∧ archivos st' = archivos st
           ∧ hoy st' = hoy st.
Proof.
  intros Hfile. rewrite init_run. unfold _cargar, exists_.
  eexists _, _. split.
  { unfold mbind at 1. unfold M_bind at 1. cbn [archivos con_heap db_path].
    rewrite Hfile. rewrite bool_decide_eq_true_2 by eauto.
    cbn [negb]. unfold mbind at 1. unfold M_bind at 1. unfold json_load.
    cbn [archivos con_heap]. rewrite Hfile.
    unfold mbind at 1. unfold M_bind at 1. unfold cargar_items, serializable.
    cbn [Py.iter]. rewrite mapM_kwargs_serializable, mapM_anotado_argumentos.
    rewrite mapM_nuevo. reflexivity. }
  cbn [db_path archivos hoy con_heap heap movimientos].
  split; [reflexivity|]. split; [|done].
  unfold libro, deref_lista. cbn [heap con_heap movimientos].
  rewrite list_lookup_middle by done. cbn.
  rewrite length_app. cbn [length].
  pose proof (mapM_deref_seq (heap st ++ [OLista []]) ms
                [OLista (seq (length (heap st) + 1) (length ms))]) as H.
  rewrite length_app in H. cbn [length] in H.
  rewrite <- app_assoc. exact H.
Qed.

(** Construction reads back what the store last wrote. *)
Lemma init_sincronizado self st ms :
  sincronizado self st ms →
  ∃ g st', __init__ (db_path self) st = (Ok g, st')
           ∧ db_path g = db_path self
           ∧ libro g st' = Some ms.
Proof.
  intros [Hfile | [-> Hno]].
  - destruct (init_serializable _ _ _ Hfile) as (g & st' & ? & ? & ? & _).
    eauto.
  - destruct (init_sin_archivo (db_path self) st Hno)
      as (g & st' & ? & ? & ? & _).
    eauto.
Qed.

(** A run of valid calls: every one succeeds, the ledger grows by the
    entries they record, in order, and the file holds the ledger. *)
Lemma agregar_todos_ok self es : ∀ st ms,
  libro self st = Some ms →
  Forall entrada_valida es →
  ∃ refs st',
    agregar_todos self es st = (Ok refs, st')
    ∧ length refs = length es
    ∧ libro self st' = Some (ms ++ (registrada (hoy st) <$> es))
    ∧ (sincronizado self st ms →
       sincronizado self st' (ms ++ (registrada (hoy st) <$> es)))
    ∧ hoy st' = hoy st.
Proof.
  induction es as [|e es IH]; intros st ms Hlibro Hvalidas.
  - exists [], st. cbn. rewrite app_nil_r. done.
  - apply Forall_cons in Hvalidas as [[Ht Hx] Hvalidas].
    apply positivo_pasa in Hx.
    destruct (agregar_ok self st ms e Hlibro Ht Hx)
      as (st1 & refs1 & Hrun & Hl & Hrefs & _ & Harch & Hhoy).
    assert (Hlibro1 : libro self st1 = Some (ms ++ [registrada (hoy st) e])).
    { unfold libro. rewrite Hl. exact Hrefs. }
    destruct (IH st1 _ Hlibro1 Hvalidas)
      as (refs & st' & Hrun' & Hlen & Hlibro' & Hsinc' & Hhoy').
    rewrite Hhoy in Hlibro', Hsinc'. rewrite <- app_assoc in Hlibro', Hsinc'.
    exists (length (heap st) :: refs), st'.
    split.
    { unfold agregar_todos in *. cbn [mapM].
      erewrite bind_Ok by exact Hrun.
      erewrite bind_Ok by exact Hrun'. reflexivity. }
    split; [cbn; by rewrite Hlen|]. split; [exact Hlibro'|].
    split; [|congruence].
    intros _. apply Hsinc'. left. rewrite Harch. apply lookup_insert_eq.
Qed.



(** ** [resumen] *)

Lemma fold_filter_total t ms : ∀ acc,
  fold_left PrimFloat.add (monto <$> filter (λ m, tipo m = t) ms) acc
  = fold_left (λ acc m, if decide (tipo m = t) then (acc + monto m)%float else acc)
      ms acc.
Proof.
  induction ms as [|m ms IH]; intros acc; [reflexivity|].
  rewrite filter_cons. cbn [fold_left].
  destruct (decide (tipo m = t)); [cbn; apply IH | apply IH].
Qed.

(** The sums [resumen] takes are the totals by kind. *)
Lemma sum_filter_total t ms :
  Py.sum (monto <$> filter (λ m, tipo m = t) ms) = total t ms.
Proof. apply fold_filter_total. Qed.

(** [div_half_even] gives a nearest integer, and the even one of the two
    when the quotient is half way between them. *)
Lemma div_half_even_cercano num den :
  (0 < den)%Z →
  let n := Py.div_half_even num den in
  (2 * Z.abs (num - n * den) ≤ den)%Z
  ∧ ((2 * Z.abs (num - n * den) = den)%Z → Z.even n = true).
Proof.
  intros Hden n. subst n. unfold Py.div_half_even.
  pose proof (Z.div_mod num den ltac:(lia)) as Hdm.
  pose proof (Z.mod_pos_bound num den Hden) as Hr.
  set (q := (num / den)%Z) in *. set (r := (num mod den)%Z) in *.
  destruct (Z.compare_spec (2 * r) den) as [Heq|Hlt|Hgt].
  - destruct (Z.even q) eqn:Hq.
    + split; [nia|done].
    + split; [nia|]. intros _. rewrite Z.even_add, Hq. reflexivity.
  - split; [nia|]. intros H. exfalso. nia.
  - split; [nia|]. intros H. exfalso. nia.
Qed.

(** [round(x, 2)] on a finite [x], the value [m * 2^e] with sign [s]: the
    integer [n] of hundredths is nearest to the exact [100 * m * 2^e],
    and the even one of two that are equally near; the result is the
    binary64 number nearest to [n / 100], with the sign of [x]. *)
Lemma round2_cercano :
  (∀ x s m e,
     Prim2SF x = S754_finite s m e →
     Py.round2 x = Py.de_centesimas s (Py.centesimas m e))
  ∧ (∀ m p,
       let n := Py.centesimas m (Zneg p) in
       (2 * Z.abs (100 * Zpos m - n * 2 ^ Zpos p) ≤ 2 ^ Zpos p)%Z
       ∧ ((2 * Z.abs (100 * Zpos m - n * 2 ^ Zpos p) = 2 ^ Zpos p)%Z →
          Z.even n = true)).
Proof.
  split. { intros x s m e Hx. unfold Py.round2. by rewrite Hx. }
  intros m p n. subst n. unfold Py.centesimas.
  rewrite Z.pow_pos_fold.
  assert (Hpos : (0 < 2 ^ Z.pos p)%Z) by (apply Z.pow_pos_nonneg; lia).
  pose proof (div_half_even_cercano (Z.pos m * 100) (2 ^ Z.pos p) Hpos) as H.
  cbv zeta in H. replace (100 * Z.pos m)%Z with (Z.pos m * 100)%Z by lia.
  exact H.
Qed.

Lemma resumen_run self st ms :
  libro self st = Some ms →
  resumen self st =
    (Ok [("ingresos", Py.round2 (total "ingreso" ms));
         ("gastos", Py.round2 (total "gasto" ms));
         ("balance", Py.round2 (total "ingreso" ms - total "gasto" ms)%float)],
     st).
Proof.
  intros Hlibro. unfold resumen.
  erewrite bind_Ok by (rewrite entradas_run, Hlibro; reflexivity).
  erewrite bind_Ok by (rewrite entradas_run, Hlibro; reflexivity).
  by rewrite !sum_filter_total.
Qed.

(** C4, the case the claim misses: a total of 0.125 lies exactly half way
    between 0.12 and 0.13; [resumen] reports 0.12, where rounding half up
    gives 0.13. *)
Lemma resumen_no_redondea_medio_arriba :
  ∃ r,
    resumen gestor0 (estado_de libro_octavo) = (Ok r, estado_de libro_octavo)
    ∧ Py.dict_get r "ingresos" = Some 0.12%float
    ∧ Py.dict_get (resumen_half_up libro_octavo) "ingresos" = Some 0.13%float
    ∧ r ≠ resumen_half_up libro_octavo.
Proof.
  eexists. split; [vm_compute; reflexivity|].
  split; [reflexivity|]. split; [vm_compute; reflexivity|].
  vm_compute. intros [=].
Qed.

Lemma resumen_sumas self st ms :
  libro self st = Some ms →
  resumen self st =
    (Ok [("ingresos", Py.round2 (Py.sum (montos "ingreso" ms)));
         ("gastos", Py.round2 (Py.sum (montos "gasto" ms)));
         ("balance",
          Py.round2 (Py.sum (montos "ingreso" ms)
                     - Py.sum (montos "gasto" ms))%float)],
     st)
  ∧ resumen_compensado self st =
      (Ok [("ingresos", Py.round2 (Py.sum_compensada (montos "ingreso" ms)));
           ("gastos", Py.round2 (Py.sum_compensada (montos "gasto" ms)));
           ("balance",
            Py.round2 (Py.sum_compensada (montos "ingreso" ms)
                       - Py.sum_compensada (montos "gasto" ms))%float)],
       st).
Proof.
  intros Hlibro. unfold resumen, resumen_compensado. split.
  - erewrite bind_Ok by (rewrite entradas_run, Hlibro; reflexivity).
    erewrite bind_Ok by (rewrite entradas_run, Hlibro; reflexivity).
    reflexivity.
  - erewrite bind_Ok by (rewrite entradas_run, Hlibro; reflexivity).
    erewrite bind_Ok by (rewrite entradas_run, Hlibro; reflexivity).
    reflexivity.
Qed.

(** C4, as amended. [resumen] returns the sum of the amounts of kind
    ingreso, the sum of those of kind gasto and the difference of the two
    sums, each rounded to two decimals by [round]: to the nearest
    hundredth of the exact value, and to the even one when the value lies
    half way between two. The sums are those of [sum] on floats: the
    amounts added from left to right up to CPython 3.11 ([resumen]), and
    added with a compensation from 3.12 on ([resumen_compensado]). The two
    can round apart: the incomes 0.375, 0.035 and 0.015 give 0.43 up to
    3.11 and 0.42 from 3.12 on. On an empty ledger the three values are
    0, and on the entries ingreso 100, gasto 40, gasto 10 they are 100, 50
    and 50, either way. *)
Theorem resumen_totales self st ms :
  libro self st = Some ms →
  resumen self st =
    (Ok [("ingresos", Py.round2 (Py.sum (montos "ingreso" ms)));
         ("gastos", Py.round2 (Py.sum (montos "gasto" ms)));
         ("balance",
          Py.round2 (Py.sum (montos "ingreso" ms)
                     - Py.sum (montos "gasto" ms))%float)],
     st)
  ∧ resumen_compensado self st =
      (Ok [("ingresos", Py.round2 (Py.sum_compensada (montos "ingreso" ms)));
           ("gastos", Py.round2 (Py.sum_compensada (montos "gasto" ms)));
           ("balance",
            Py.round2 (Py.sum_compensada (montos "ingreso" ms)
                       - Py.sum_compensada (montos "gasto" ms))%float)],
       st)
  ∧ (∀ t, Py.sum (montos t ms) = total t ms)
  ∧ (ms = [] →
     resumen self st
     = (Ok [("ingresos", 0%float); ("gastos", 0%float); ("balance", 0%float)],
        st)
     ∧ resumen_compensado self st
       = (Ok [("ingresos", 0%float); ("gastos", 0%float);
              ("balance", 0%float)], st))
  ∧ (ms = libro_resumen →
     resumen self st
     = (Ok [("ingresos", 100%float); ("gastos", 50%float);
            ("balance", 50%float)], st)
     ∧ resumen_compensado self st
       = (Ok [("ingresos", 100%float); ("gastos", 50%float);
              ("balance", 50%float)], st))
  ∧ (ms = libro_compensado →
     resumen self st
     = (Ok [("ingresos", 0.43%float); ("gastos", 0%float);
            ("balance", 0.43%float)], st)
     ∧ resumen_compensado self st
       = (Ok [("ingresos", 0.42%float); ("gastos", 0%float);
              ("balance", 0.42%float)], st))
  ∧ (∀ x s m e,
       Prim2SF x = S754_finite s m e →
       Py.round2 x = Py.de_centesimas s (Py.centesimas m e))
  ∧ (∀ m p,
       let n := Py.centesimas m (Zneg p) in
       (2 * Z.abs (100 * Zpos m - n * 2 ^ Zpos p) ≤ 2 ^ Zpos p)%Z
       ∧ ((2 * Z.abs (100 * Zpos m - n * 2 ^ Zpos p) = 2 ^ Zpos p)%Z →
          Z.even n = true))
  ∧ Py.round2 0.125 = 0.12%float
  ∧ Py.round2 0.375 = 0.38%float.
Proof.
  intros Hlibro. destruct (resumen_sumas self st ms Hlibro) as [Hrun Hrun'].
  split; [exact Hrun|]. split; [exact Hrun'|].
  split; [intros t; apply sum_filter_total|].
  split; [intros ->; rewrite Hrun, Hrun'; split; reflexivity|].
  split; [intros ->; rewrite Hrun, Hrun'; split; vm_compute; reflexivity|].
  split; [intros ->; rewrite Hrun, Hrun'; split; vm_compute; reflexivity|].
  split; [apply round2_cercano|]. split; [apply round2_cercano|].
  split; vm_compute; reflexivity.
Qed.

Lemma resumen_totales_witness :
  (resumen gestor0 (estado_de libro_resumen)
   = (Ok [("ingresos", 100%float); ("gastos", 50%float);
          ("balance", 50%float)], estado_de libro_resumen)
   ∧ resumen_compensado gestor0 (estado_de libro_resumen)
     = (Ok [("ingresos", 100%float); ("gastos", 50%float);
            ("balance", 50%float)], estado_de libro_resumen))
  ∧ (resumen gestor0 (estado_de libro_compensado)
     = (Ok [("ingresos", 0.43%float); ("gastos", 0%float);
            ("balance", 0.43%float)], estado_de libro_compensado)
     ∧ resumen_compensado gestor0 (estado_de libro_compensado)
       = (Ok [("ingresos", 0.42%float); ("gastos", 0%float);
              ("balance", 0.42%float)], estado_de libro_compensado)).
Proof.
  split.
  - apply (resumen_totales gestor0 (estado_de libro_resumen) libro_resumen).
    + reflexivity.
    + reflexivity.
  - apply (resumen_totales gestor0 (estado_de libro_compensado)
             libro_compensado).
    + reflexivity.
    + reflexivity.
Defined.

(** ** [dict] *)

Section DictFacts.
Context {V : Type}.
Implicit Types (d : list (string * V)) (k : string) (v : V).

Lemma dict_get_set d k v k' :
  Py.dict_get (Py.dict_set d k v) k'
  = if decide (k = k') then Some v else Py.dict_get d k'.
Proof.
  induction d as [|[k0 v0] d IH]; cbn.
  - by destruct (decide (k = k')).
  - destruct (decide (k0 = k)) as [->|Hne]; cbn.
    + by destruct (decide (k = k')).
    + destruct (decide (k0 = k')) as [->|Hne'].
      * by rewrite decide_False by done.
      * exact IH.
Qed.

Lemma dict_get_None d k : Py.dict_get d k = None ↔ k ∉ d.*1.
Proof.
  induction d as [|[k0 v0] d IH]; cbn.
  - split; [intros _; apply not_elem_of_nil | done].
  - rewrite not_elem_of_cons. destruct (decide (k0 = k)) as [->|Hne].
    + split; [done | by intros []].
    + rewrite IH. split; [by intros ? | by intros [_ ?]].
Qed.

Lemma dict_get_Some d k v :
  NoDup d.*1 → Py.dict_get d k = Some v ↔ (k, v) ∈ d.
Proof.
  induction d as [|[k0 v0] d IH]; cbn; intros Hnd.
  - split; [done | by intros ?%elem_of_nil].
  - apply NoDup_cons in Hnd as [Hk0 Hnd]. rewrite elem_of_cons.
    destruct (decide (k0 = k)) as [->|Hne].
    + split; [intros [= ->]; by left|].
      intros [[= ->] | Hin]; [done|].
      exfalso. apply Hk0. apply list_elem_of_fmap. by exists (k, v).
    + rewrite (IH Hnd). split; [by right|].
      intros [[= -> ->] | Hin]; done.
Qed.

Lemma dict_set_nueva d k v : k ∉ d.*1 → Py.dict_set d k v = d ++ [(k, v)].
Proof.
  induction d as [|[k0 v0] d IH]; cbn; [done|].
  rewrite not_elem_of_cons. intros [Hne Hnotin].
  rewrite decide_False by done. by rewrite IH.
Qed.

Lemma dict_set_claves d k v :
  (Py.dict_set d k v).*1 = if decide (k ∈ d.*1) then d.*1 else d.*1 ++ [k].
Proof.
  induction d as [|[k0 v0] d IH]; cbn.
  - by rewrite decide_False by apply not_elem_of_nil.
  - destruct (decide (k0 = k)) as [->|Hne]; cbn.
    + by rewrite decide_True by left.
    + rewrite IH. destruct (decide (k ∈ d.*1)) as [Hin|Hnotin].
      * by rewrite decide_True by (by right).
      * rewrite decide_False; [done|].
        rewrite not_elem_of_cons. done.
Qed.

Lemma dict_set_NoDup d k v : NoDup d.*1 → NoDup (Py.dict_set d k v).*1.
Proof.
  intros Hnd. rewrite dict_set_claves.
  destruct (decide (k ∈ d.*1)); [done|].
  apply NoDup_app. split; [done|]. split; [|apply NoDup_singleton].
  intros x Hx ->%list_elem_of_singleton. done.
Qed.

End DictFacts.

(** ** The order of [str] and [sorted] *)

Lemma compare_Lt_trans a : ∀ b c,
  String.compare a b = Lt → String.compare b c = Lt → String.compare a c = Lt.
Proof.
  induction a as [|x a IH]; intros [|y b] [|z c]; cbn; try done.
  destruct (Ascii.compare x y) eqn:Hxy; [|clear IH|done].
  - apply Ascii.compare_eq_iff in Hxy as ->.
    destruct (Ascii.compare y z); [apply IH|done|done].
  - intros _. destruct (Ascii.compare y z) eqn:Hyz; [|intros _|done].
    + apply Ascii.compare_eq_iff in Hyz as <-. intros _. by rewrite Hxy.
    + assert (Hxz : Ascii.compare x z = Lt).
      { unfold Ascii.compare in *. apply N.compare_lt_iff.
        eapply N.lt_trans; apply N.compare_lt_iff; eassumption. }
      by rewrite Hxz.
Qed.

Lemma str_lt_compare a b : str_lt a b ↔ String.compare a b = Lt.
Proof.
  unfold str_lt, String.ltb. by destruct (String.compare a b).
Qed.

Lemma str_lt_trans a b c : str_lt a b → str_lt b c → str_lt a c.
Proof. rewrite !str_lt_compare. apply compare_Lt_trans. Qed.

Lemma str_lt_total a b : a ≠ b → str_lt a b ∨ str_lt b a.
Proof.
  intros Hne. rewrite !str_lt_compare.
  destruct (String.compare a b) eqn:Hab.
  - by apply String.compare_eq_iff in Hab.
  - by left.
  - right. rewrite String.compare_antisym, Hab. reflexivity.
Qed.

Lemma tuple_lt_claves x y :
  x.1 ≠ y.1 → Py.tuple_lt x y = String.ltb x.1 y.1.
Proof. intros Hne. unfold Py.tuple_lt. by rewrite decide_False. Qed.

Lemma insertar_perm x l : Py.insertar x l ≡ₚ x :: l.
Proof.
  induction l as [|y l IH]; cbn; [done|].
  destruct (Py.tuple_lt x y); [done|].
  rewrite IH. apply Permutation_swap.
Qed.

Lemma sorted_fold_perm l : ∀ acc,
  fold_left (λ acc x, Py.insertar x acc) l acc ≡ₚ acc ++ l.
Proof.
  induction l as [|x l IH]; intros acc; cbn.
  - by rewrite app_nil_r.
  - rewrite IH, insertar_perm. cbn. apply Permutation_middle.
Qed.

Lemma sorted_perm l : Py.sorted l ≡ₚ l.
Proof. apply sorted_fold_perm. Qed.

(** Ascending by key. *)
Lemma insertar_ordenado x l :
  StronglySorted (λ a b, str_lt a.1 b.1) l →
  x.1 ∉ l.*1 →
  StronglySorted (λ a b, str_lt a.1 b.1) (Py.insertar x l).
Proof.
  induction l as [|y l IH]; cbn; intros Hsorted Hnotin.
  - repeat constructor.
  - apply not_elem_of_cons in Hnotin as [Hne Hnotin].
    apply StronglySorted_inv in Hsorted as [Hsorted Hy].
    rewrite tuple_lt_claves by done.
    destruct (String.ltb x.1 y.1) eqn:Hlt.
    + constructor; [by constructor|].
      constructor; [exact Hlt|].
      eapply Forall_impl; [exact Hy|]. intros z Hz.
      by eapply str_lt_trans.
    + constructor; [by apply IH|].
      rewrite insertar_perm. constructor; [|exact Hy].
      destruct (str_lt_total x.1 y.1 Hne) as [Hxy|Hyx]; [|exact Hyx].
      unfold str_lt in Hxy. congruence.
Qed.

Lemma sorted_fold_ordenado l : ∀ acc,
  StronglySorted (λ a b, str_lt a.1 b.1) acc →
  NoDup (acc.*1 ++ l.*1) →
  StronglySorted (λ a b, str_lt a.1 b.1)
    (fold_left (λ acc x, Py.insertar x acc) l acc).
Proof.
  induction l as [|x l IH]; intros acc Hsorted Hnd; cbn; [done|].
  cbn in Hnd. apply NoDup_app in Hnd as (Hacc & Hdisj & Hl).
  apply NoDup_cons in Hl as [Hx Hl].
  apply IH.
  - apply insertar_ordenado; [done|]. intros Hin.
    apply (Hdisj _ Hin). by left.
  - rewrite insertar_perm. cbn. apply NoDup_cons. split.
    + rewrite elem_of_app. intros [Hin|Hin]; [|done].
      apply (Hdisj _ Hin). by left.
    + apply NoDup_app. split; [done|]. split; [|done].
      intros k Hk Hk'. apply (Hdisj _ Hk). by right.
Qed.

Lemma sorted_ordenado l :
  NoDup l.*1 → StronglySorted (λ a b, str_lt a.1 b.1) (Py.sorted l).
Proof. intros Hnd. apply sorted_fold_ordenado; [constructor | done]. Qed.

Lemma ordenado_claves {V} (l : list (string * V)) :
  StronglySorted (λ a b, str_lt a.1 b.1) l → StronglySorted str_lt l.*1.
Proof.
  induction 1 as [|x l _ IH Hx]; cbn; constructor; [done|].
  by apply Forall_fmap.
Qed.

Lemma redondeados_fold items : ∀ acc,
  NoDup (acc.*1 ++ items.*1) →
  fold_left (λ d p, Py.dict_set d p.1 (Py.round2 p.2)) items acc
  = acc ++ ((λ p, (p.1, Py.round2 p.2)) <$> items).
Proof.
  induction items as [|p items IH]; intros acc Hnd; cbn.
  - by rewrite app_nil_r.
  - cbn in Hnd. pose proof Hnd as Hnd'.
    apply NoDup_app in Hnd as (Hacc & Hdisj & Hl).
    rewrite dict_set_nueva by (intros Hin; apply (Hdisj _ Hin); by left).
    rewrite IH.
    + by rewrite <- app_assoc.
    + rewrite fmap_app. cbn. by rewrite <- app_assoc.
Qed.

Lemma redondeados_map items :
  NoDup items.*1 →
  redondeados items = (λ p, (p.1, Py.round2 p.2)) <$> items.
Proof. intros Hnd. by apply (redondeados_fold items []). Qed.

(** ** [resumen_por_categoria] *)

Lemma acumular_NoDup t ms : ∀ acc : dict,
  NoDup acc.*1 → NoDup (fold_left (acumular t) ms acc).*1.
Proof.
  induction ms as [|m ms IH]; intros acc Hnd; cbn; [done|].
  apply IH. unfold acumular.
  destruct (decide (tipo m ≠ t)); [done | by apply dict_set_NoDup].
Qed.

(** The loop keeps, for every category, the running sum of the amounts of
    the entries of the kind and the category, in ledger order. *)
Lemma acumular_get t c ms : ∀ acc : dict,
  Py.dict_get (fold_left (acumular t) ms acc) c =
    match filter (λ m, tipo m = t ∧ categoria m = c) ms with
    | [] => Py.dict_get acc c
    | _ :: _ =>
        Some (fold_left PrimFloat.add
                (monto <$> filter (λ m, tipo m = t ∧ categoria m = c) ms)
                (default 0%float (Py.dict_get acc c)))
    end.
Proof.
  induction ms as [|m ms IH]; intros acc; [reflexivity|].
  cbn [fold_left]. rewrite filter_cons, IH. unfold acumular.
  destruct (decide (tipo m ≠ t)) as [Hne|Heq].
  - by rewrite decide_False by (by intros [? _]).
  - apply dec_stable in Heq. rewrite dict_get_set.
    destruct (decide (categoria m = c)) as [Hc|Hc].
    + rewrite (decide_True (P := tipo m = t ∧ categoria m = c)) by done.
      rewrite Hc.
      by destruct (filter (λ m, tipo m = t ∧ categoria m = c) ms).
    + by rewrite decide_False by (by intros [_ ?]).
Qed.

Lemma totales_get t c ms :
  Py.dict_get (fold_left (acumular t) ms []) c =
    match filter (λ m, tipo m = t ∧ categoria m = c) ms with
    | [] => None
    | _ :: _ => Some (total_categoria t c ms)
    end.
Proof. apply acumular_get. Qed.

Lemma redondeados_claves (items : dict) :
  ((λ p, (p.1, Py.round2 p.2)) <$> items).*1 = items.*1.
Proof. rewrite <- list_fmap_compose. by apply list_fmap_ext. Qed.

Lemma resumen_por_categoria_run self st ms tipo_ :
  libro self st = Some ms →
  tipo_ ∈ TIPOS →
  resumen_por_categoria self tipo_ st =
    (Ok ((λ p, (p.1, Py.round2 p.2))
           <$> Py.sorted (fold_left (acumular tipo_) ms [])), st)
  ∧ NoDup (fold_left (acumular tipo_) ms []).*1.
Proof.
  intros Hlibro Ht.
  assert (Hnd : NoDup (fold_left (acumular tipo_) ms []).*1)
    by apply acumular_NoDup, NoDup_nil_2.
  split; [|exact Hnd]. unfold resumen_por_categoria.
  rewrite bool_decide_eq_false_2 by (by intros []).
  erewrite bind_Ok by (rewrite entradas_run, Hlibro; reflexivity).
  cbn. rewrite redondeados_map; [done|]. by rewrite sorted_perm.
Qed.

(** C5. For a kind in {ingreso, gasto}, [resumen_por_categoria] returns a
    mapping whose keys are exactly the categories of the entries of that
    kind, each with the sum of the amounts of the kind and the category
    rounded to two decimals, the keys in ascending order; for any other
    kind it raises [InvalidKind]; on the entries gasto food 10, gasto food
    5, gasto rent 20 and the kind gasto it returns food 15, rent 20.
    Rounded to two decimals: to the nearest hundredth of the exact value,
    the even one when two are equally near, so that on the entries gasto
    food 0.125, gasto rent 1.005, gasto food 2 the mapping is food 2.12,
    rent 1.0. *)
Theorem resumen_por_categoria_spec self st tipo_ :
  (∀ ms,
     libro self st = Some ms →
     tipo_ ∈ TIPOS →
     ∃ r,
       resumen_por_categoria self tipo_ st = (Ok r, st)
       ∧ (∀ c, c ∈ r.*1 ↔ ∃ m, m ∈ ms ∧ tipo m = tipo_ ∧ categoria m = c)
       ∧ (∀ c v, (c, v) ∈ r → v = Py.round2 (total_categoria tipo_ c ms))
       ∧ StronglySorted str_lt r.*1)
  ∧ (tipo_ ∉ TIPOS →
     resumen_por_categoria self tipo_ st = (Raise InvalidKind, st))
  ∧ (libro self st = Some libro_categorias →
     tipo_ = "gasto" →
     resumen_por_categoria self tipo_ st
     = (Ok [("food", 15%float); ("rent", 20%float)], st))
  ∧ (libro self st = Some libro_fracciones →
     tipo_ = "gasto" →
     resumen_por_categoria self tipo_ st
     = (Ok [("food", 2.12%float); ("rent", 1%float)], st))
  ∧ (∀ x s m e,
       Prim2SF x = S754_finite s m e →
       Py.round2 x = Py.de_centesimas s (Py.centesimas m e))
  ∧ (∀ m p,
       let n := Py.centesimas m (Zneg p) in
       (2 * Z.abs (100 * Zpos m - n * 2 ^ Zpos p) ≤ 2 ^ Zpos p)%Z
       ∧ ((2 * Z.abs (100 * Zpos m - n * 2 ^ Zpos p) = 2 ^ Zpos p)%Z →
          Z.even n = true))
  ∧ Py.round2 2.125 = 2.12%float
  ∧ Py.round2 1.005 = 1%float
  ∧ Py.round2 2.675 = 2.67%float.
Proof.
  split; [|split; [|split; [|split; [|split; [|split]]]]];
    [| | | |apply round2_cercano|apply round2_cercano
     |repeat split; vm_compute; reflexivity].
  - intros ms Hlibro Ht.
    destruct (resumen_por_categoria_run self st ms tipo_ Hlibro Ht)
      as [Hrun Hnd].
    eexists. split; [exact Hrun|].
    set (totales := fold_left (acumular tipo_) ms []) in *.
    split; [|split].
    + intros c. rewrite redondeados_claves, sorted_perm.
      pose proof (totales_get tipo_ c ms) as Hget. fold totales in Hget.
      split.
      * intros Hin.
        destruct (filter (λ m, tipo m = tipo_ ∧ categoria m = c) ms)
          as [|m l] eqn:Hf.
        { by apply dict_get_None in Hget. }
        assert (Hm : m ∈ filter (λ m, tipo m = tipo_ ∧ categoria m = c) ms)
          by (rewrite Hf; left).
        apply list_elem_of_filter in Hm as [[? ?] ?]. eauto.
      * intros (m & Hm & Htipo & Hcat).
        assert (Hmf : m ∈ filter (λ m, tipo m = tipo_ ∧ categoria m = c) ms)
          by (by apply list_elem_of_filter).
        destruct (filter (λ m, tipo m = tipo_ ∧ categoria m = c) ms)
          as [|m' l]; [by apply elem_of_nil in Hmf|].
        destruct (decide (c ∈ totales.*1)) as [|Hnotin]; [done|].
        apply dict_get_None in Hnotin. congruence.
    + intros c v Hin.
      apply list_elem_of_fmap in Hin as ([c' v0] & [= -> ->] & Hin).
      rewrite sorted_perm in Hin.
      apply (dict_get_Some _ _ _ Hnd) in Hin. cbn [fst snd].
      pose proof (totales_get tipo_ c' ms) as Hget. fold totales in Hget.
      rewrite Hget in Hin.
      destruct (filter (λ m, tipo m = tipo_ ∧ categoria m = c') ms);
        [discriminate|]. by injection Hin as <-.
    + rewrite redondeados_claves. apply ordenado_claves.
      by apply sorted_ordenado.
  - intros Ht. unfold resumen_por_categoria.
    by rewrite bool_decide_eq_true_2.
  - intros Hlibro ->.
    destruct (resumen_por_categoria_run self st _ "gasto" Hlibro gasto_en_TIPOS)
      as [-> _].
    vm_compute. reflexivity.
  - intros Hlibro ->.
    destruct (resumen_por_categoria_run self st _ "gasto" Hlibro gasto_en_TIPOS)
      as [-> _].
    vm_compute. reflexivity.
Qed.

Lemma resumen_por_categoria_spec_witness :
  (∃ r,
     resumen_por_categoria gestor0 "gasto" (estado_de libro_categorias)
       = (Ok r, estado_de libro_categorias)
     ∧ (∀ c, c ∈ r.*1 ↔
             ∃ m, m ∈ libro_categorias ∧ tipo m = "gasto" ∧ categoria m = c)
     ∧ (∀ c v, (c, v) ∈ r →
               v = Py.round2 (total_categoria "gasto" c libro_categorias))
     ∧ StronglySorted str_lt r.*1)
  ∧ resumen_por_categoria gestor0 "ahorro" (estado_de libro_categorias)
    = (Raise InvalidKind, estado_de libro_categorias)
  ∧ resumen_por_categoria gestor0 "gasto" (estado_de libro_categorias)
    = (Ok [("food", 15%float); ("rent", 20%float)],
       estado_de libro_categorias)
  ∧ resumen_por_categoria gestor0 "gasto" (estado_de libro_fracciones)
    = (Ok [("food", 2.12%float); ("rent", 1%float)],
       estado_de libro_fracciones).
Proof.
  split; [|split; [|split]].
  - apply (proj1 (resumen_por_categoria_spec gestor0
                    (estado_de libro_categorias) "gasto") libro_categorias).
    + reflexivity.
    + exact gasto_en_TIPOS.
  - apply (proj1 (proj2 (resumen_por_categoria_spec gestor0
                           (estado_de libro_categorias) "ahorro"))).
    by vm_compute.
  - apply (proj1 (proj2 (proj2 (resumen_por_categoria_spec gestor0
                                  (estado_de libro_categorias) "gasto")))).
    + reflexivity.
    + reflexivity.
  - apply (proj1 (proj2 (proj2 (proj2 (resumen_por_categoria_spec gestor0
                                         (estado_de libro_fracciones)
                                         "gasto"))))).
    + reflexivity.
    + reflexivity.
Defined.

(** * More of the store *)

(** ** What a successful [agregar_movimiento] leaves behind *)

(** X1. After a call that passes both checks, whatever the file held
    before, the file of the store holds exactly the ledger the store has
    in memory, which is the former ledger followed by the new entry; no
    other file is created or changed. *)
Theorem agregar_sincroniza self st ms e :
  libro self st = Some ms →
  e_tipo e ∈ TIPOS →
  (e_monto e <=? 0)%float = false →
  ∃ r st1,
    agregar self e st = (Ok r, st1)
    ∧ libro self st1 = Some (ms ++ [registrada (hoy st) e])
    ∧ archivos st1 !! db_path self
      = Some (Documento (serializable (ms ++ [registrada (hoy st) e])))
    ∧ (∀ p, p ≠ db_path self → archivos st1 !! p = archivos st !! p).
Proof.
  intros Hlibro Ht Hx.
  destruct (agregar_ok self st ms e Hlibro Ht Hx)
    as (st1 & refs & Hrun & Hl & Hrefs & _ & Harch & _).
  exists (length (heap st)), st1. split; [exact Hrun|].
  split. { unfold libro. rewrite Hl. exact Hrefs. }
  rewrite Harch. split; [apply lookup_insert_eq|].
  intros p Hp. by apply lookup_insert_ne.
Qed.

Lemma agregar_sincroniza_witness :
  ∃ r st1,
    agregar gestor0 entrada_a (estado_de libro_resumen) = (Ok r, st1)
    ∧ libro gestor0 st1
      = Some (libro_resumen
              ++ [registrada (hoy (estado_de libro_resumen)) entrada_a])
    ∧ archivos st1 !! db_path gestor0
      = Some (Documento (serializable
                (libro_resumen
                 ++ [registrada (hoy (estado_de libro_resumen)) entrada_a])))
    ∧ (∀ p, p ≠ db_path gestor0 →
            archivos st1 !! p = archivos (estado_de libro_resumen) !! p).
Proof.
  apply (agregar_sincroniza gestor0 (estado_de libro_resumen) libro_resumen
           entrada_a).
  - reflexivity.
  - exact gasto_en_TIPOS.
  - reflexivity.
Defined.

(** ** The entries [agregar_movimiento] makes *)

Lemma lstrip_id s :
  (∀ c, head (String.list_ascii_of_string s) = Some c → Py.isspace c = false) →
  Py.lstrip s = s.
Proof.
  destruct s as [|c r]; [done|]. cbn. intros H. by rewrite (H c).
Qed.

Lemma rstrip_id s :
  (∀ c, last (String.list_ascii_of_string s) = Some c → Py.isspace c = false) →
  Py.rstrip s = s.
Proof.
  induction s as [|c r IH]; [done|]. intros H. cbn [Py.rstrip].
  destruct r as [|c' r'].
  - cbn. by rewrite (H c).
  - rewrite IH; [done|]. intros c0 Hc0. apply H. exact Hc0.
Qed.

Lemma strip_sin_bordes s : sin_bordes (Py.strip s).
Proof.
  destruct (strip_spec s) as (pre & post & _ & _ & _ & Hhead & Hlast).
  by split.
Qed.

Lemma strip_id s : sin_bordes s → Py.strip s = s.
Proof.
  intros [Hhead Hlast]. unfold Py.strip.
  rewrite (lstrip_id s Hhead). by apply rstrip_id.
Qed.

Lemma registrada_normal d e :
  e_tipo e ∈ TIPOS →
  (e_monto e <=? 0)%float = false →
  Py.date_ok d →
  entrada_normal (registrada d e).
Proof.
  intros Ht Hx Hd. unfold entrada_normal, registrada. cbn.
  split; [exact Ht|]. split; [exact Hx|].
  split; [|split; [|split; [apply strip_sin_bordes|]]].
  - by destruct (decide (Py.strip (e_categoria e) = "")).
  - destruct (decide (Py.strip (e_categoria e) = ""));
      [|apply strip_sin_bordes].
    split; cbn; by intros c [= <-].
  - destruct (e_fecha e) as [s|]; [|by apply isoformat_no_vacio].
    destruct (decide (s = "")); [by apply isoformat_no_vacio | done].
Qed.

(** X3. [agregar_movimiento] keeps the ledger within the bounds of the
    data: if every entry has a kind in {ingreso, gasto}, an amount that is
    not zero or below, a category that is not empty, a category and a
    description without white space at either end and a date that is not
    empty, and the clock shows a date, then after a successful call every
    entry of the ledger still has, the new one included. *)
Theorem agregar_conserva_normal self st ms e :
  libro self st = Some ms →
  Forall entrada_normal ms →
  e_tipo e ∈ TIPOS →
  (e_monto e <=? 0)%float = false →
  Py.date_ok (hoy st) →
  ∃ r st1 ms1,
    agregar self e st = (Ok r, st1)
    ∧ libro self st1 = Some ms1
    ∧ length ms1 = S (length ms)
    ∧ Forall entrada_normal ms1.
Proof.
  intros Hlibro Hms Ht Hx Hhoy.
  destruct (agregar_ok self st ms e Hlibro Ht Hx)
    as (st1 & refs & Hrun & Hl & Hrefs & _).
  exists (length (heap st)), st1, (ms ++ [registrada (hoy st) e]).
  split; [exact Hrun|]. split. { unfold libro. rewrite Hl. exact Hrefs. }
  split. { rewrite length_app. cbn. lia. }
  apply Forall_app. split; [exact Hms|].
  apply Forall_singleton. by apply registrada_normal.
Qed.

Lemma agregar_conserva_normal_witness :
  ∃ r st1 ms1,
    agregar gestor0 entrada_a (estado_de []) = (Ok r, st1)
    ∧ libro gestor0 st1 = Some ms1
    ∧ length ms1 = S (length (@nil Movimiento))
    ∧ Forall entrada_normal ms1.
Proof.
  apply (agregar_conserva_normal gestor0 (estado_de []) [] entrada_a).
  - reflexivity.
  - constructor.
  - exact gasto_en_TIPOS.
  - reflexivity.
  - vm_compute. repeat split; discriminate.
Defined.

Lemma registrada_entrada_de d m :
  entrada_normal m → registrada d (entrada_de m) = m.
Proof.
  intros (_ & _ & Hc & Hcb & Hdb & Hf). unfold registrada, entrada_de.
  cbn [e_tipo e_monto e_categoria e_descripcion e_fecha].
  rewrite (strip_id _ Hcb), (strip_id _ Hdb).
  rewrite decide_False by done. rewrite decide_False by done.
  by destruct m.
Qed.

(** X4. The normalisation is idempotent: when the fields of an entry of
    that form are passed to [agregar_movimiento] again, whatever the clock
    shows, the entry recorded is equal to it. *)
Theorem agregar_de_nuevo self st ms m :
  libro self st = Some ms →
  entrada_normal m →
  ∃ r st1,
    agregar self (entrada_de m) st = (Ok r, st1)
    ∧ libro self st1 = Some (ms ++ [m]).
Proof.
  intros Hlibro Hm. pose proof Hm as (Ht & Hx & _).
  destruct (agregar_ok self st ms (entrada_de m) Hlibro Ht Hx)
    as (st1 & refs & Hrun & Hl & Hrefs & _).
  exists (length (heap st)), st1. split; [exact Hrun|].
  unfold libro. rewrite Hl. cbn. rewrite Hrefs.
  by rewrite registrada_entrada_de.
Qed.

Lemma agregar_de_nuevo_witness :
  ∃ r st1,
    agregar gestor0 (entrada_de (mov "gasto" 40 "general"))
      (estado_de libro_resumen) = (Ok r, st1)
    ∧ libro gestor0 st1 = Some (libro_resumen ++ [mov "gasto" 40 "general"]).
Proof.
  apply (agregar_de_nuevo gestor0 (estado_de libro_resumen) libro_resumen
           (mov "gasto" 40 "general")).
  - reflexivity.
  - split; [exact gasto_en_TIPOS|]. split; [reflexivity|].
    split; [discriminate|].
    split; [split; cbn; by intros c [= <-]|].
    split; [split; cbn; discriminate|discriminate].
Defined.

(** ** More of the construction *)

Lemma init_documento path st d :
  archivos st !! path = Some (Documento d) →
  __init__ path st =
    (refs ← cargar_items d;
     l ← nuevo (OLista refs);
     mret {| db_path := path; movimientos := l |})
      (con_heap (heap st ++ [OLista []]) st).
Proof.
  intros Hfile. rewrite init_run. unfold _cargar, exists_.
  unfold mbind at 1. unfold M_bind at 1. cbn [archivos con_heap db_path].
  rewrite Hfile. rewrite bool_decide_eq_true_2 by eauto.
  cbn [negb]. unfold mbind at 1. unfold M_bind at 1. unfold json_load.
  cbn [archivos con_heap]. by rewrite Hfile.
Qed.

(** What [cargar_items] does, by the items of the document. *)
Lemma cargar_items_run d st :
  cargar_items d st =
    match Py.iter d with
    | None => (Raise TypeError, st)
    | Some items =>
        match mapM Movimiento_kwargs items with
        | None => (Raise TypeError, st)
        | Some args =>
            match mapM anotado args with
            | None => (SinModelo FueraDeAnotacion, st)
            | Some ms =>
                (Ok (seq (length (heap st)) (length ms)),
                 con_heap (heap st ++ (OMovimiento <$> ms)) st)
            end
        end
    end.
Proof.
  unfold cargar_items. destruct (Py.iter d) as [items|]; [|reflexivity].
  destruct (mapM Movimiento_kwargs items) as [args|]; [|reflexivity].
  destruct (mapM anotado args) as [ms|]; [|reflexivity].
  apply mapM_nuevo.
Qed.

Ltac decidir := refine (proj1 (bool_decide_eq_true _) _); reflexivity.

Lemma forallb_false {A} (f : A → bool) l :
  forallb f l = false → ∃ x, x ∈ l ∧ f x = false.
Proof.
  induction l as [|x l IH]; cbn; [done|].
  destruct (f x) eqn:Hx; cbn.
  - intros (y & Hy & Hfy)%IH. exists y. split; [by right|done].
  - intros _. exists x. split; [by left|done].
Qed.

Lemma Movimiento_kwargs_None item :
  Movimiento_kwargs item = None → mal_formado item.
Proof.
  destruct item as [| | | | | |kv]; try done.
  cbn [mal_formado Movimiento_kwargs].
  destruct (forallb (λ k, bool_decide (k ∈ CAMPOS)) (map fst kv)) eqn:Hkeys.
  - intros Hnone. left. unfold falta_campo.
    destruct (Py.dict_get kv "tipo") eqn:?; cbn in Hnone;
      [|exists "tipo"; split; [decidir|done]].
    destruct (Py.dict_get kv "monto") eqn:?; cbn in Hnone;
      [|exists "monto"; split; [decidir|done]].
    destruct (Py.dict_get kv "categoria") eqn:?; cbn in Hnone;
      [|exists "categoria"; split; [decidir|done]].
    destruct (Py.dict_get kv "descripcion") eqn:?; cbn in Hnone;
      [|exists "descripcion"; split; [decidir|done]].
    destruct (Py.dict_get kv "fecha") eqn:?; cbn in Hnone;
      [|exists "fecha"; split; [decidir|done]].
    discriminate Hnone.
  - intros _. right. apply forallb_false in Hkeys as (k & Hk & Hout).
    exists k. split; [exact Hk|]. by apply bool_decide_eq_false in Hout.
Qed.

Lemma mapM_kwargs_None items :
  mapM Movimiento_kwargs items = None → Exists mal_formado items.
Proof.
  induction items as [|item items IH]; [done|]. cbn [mapM].
  destruct (Movimiento_kwargs item) eqn:Hitem.
  - cbn. destruct (mapM Movimiento_kwargs items); [done|].
    intros _. apply Exists_cons_tl. by apply IH.
  - intros _. apply Exists_cons_hd. by apply Movimiento_kwargs_None.
Qed.

Lemma init_mal_formado path st d :
  archivos st !! path = Some (Documento d) →
  (∃ st', __init__ path st = (Raise MalformedRecord, st'))
  ↔ (Py.iter d = None
     ∨ ∃ items, Py.iter d = Some items ∧ Exists mal_formado items).
Proof.
  intros Hfile. rewrite (init_documento _ _ _ Hfile).
  unfold mbind at 1. unfold M_bind at 1. rewrite cargar_items_run.
  destruct (Py.iter d) as [items|]; [|split; [by left | by eexists]].
  destruct (mapM Movimiento_kwargs items) as [args|] eqn:Hargs.
  - split.
    + intros [st' Hrun]. destruct (mapM anotado args); discriminate Hrun.
    + intros [? | (items' & [= <-] & Hbad)]; [done|].
      by rewrite (mapM_kwargs_mal_formado items Hbad) in Hargs.
  - split; [|by eexists]. intros _. right. exists items.
    split; [done | by apply mapM_kwargs_None].
Qed.

(** X5. Construction from a file that holds a JSON document raises
    [MalformedRecord] exactly when the document cannot be iterated over
    (it is null, a boolean or a number) or one of the items it yields is
    no object, lacks a field or has a key that names no field. *)
Theorem construir_mal_formado path st d :
  archivos st !! path = Some (Documento d) →
  (∃ st', __init__ path st = (Raise MalformedRecord, st'))
  ↔ (Py.iter d = None
     ∨ ∃ items, Py.iter d = Some items ∧ Exists mal_formado items).
Proof. apply init_mal_formado. Qed.

Lemma construir_mal_formado_witness :
  (∃ st', __init__ DEFAULT_DB_PATH
            (con_archivo (Documento (Py.JArr [sin_fecha])))
          = (Raise MalformedRecord, st'))
  ↔ (Py.iter (Py.JArr [sin_fecha]) = None
     ∨ ∃ items, Py.iter (Py.JArr [sin_fecha]) = Some items
                ∧ Exists mal_formado items).
Proof.
  apply (construir_mal_formado DEFAULT_DB_PATH
           (con_archivo (Documento (Py.JArr [sin_fecha])))
           (Py.JArr [sin_fecha])).
  reflexivity.
Defined.

(** X6. A file whose document is a JSON object or a JSON string, not an
    array, is read as an empty ledger when the object has no key, or the
    string no character, and raises [MalformedRecord] otherwise. *)
Theorem construir_sin_lista path st :
  (∀ kv,
     archivos st !! path = Some (Documento (Py.JObj kv)) →
     match kv with
     | [] => ∃ g st', __init__ path st = (Ok g, st') ∧ libro g st' = Some []
     | _ :: _ => ∃ st', __init__ path st = (Raise MalformedRecord, st')
     end)
  ∧ (∀ s,
       archivos st !! path = Some (Documento (Py.JStr s)) →
       match s with
       | EmptyString =>
           ∃ g st', __init__ path st = (Ok g, st') ∧ libro g st' = Some []
       | String _ _ => ∃ st', __init__ path st = (Raise MalformedRecord, st')
       end).
Proof.
  assert (Hvacio : ∀ d, archivos st !! path = Some (Documento d) →
            Py.iter d = Some [] →
            ∃ g st', __init__ path st = (Ok g, st') ∧ libro g st' = Some []).
  { intros d Hfile Hiter. rewrite (init_documento _ _ _ Hfile).
    unfold mbind at 1. unfold M_bind at 1.
    rewrite cargar_items_run, Hiter. cbn.
    eexists _, _. split; [reflexivity|].
    unfold libro, deref_lista. cbn. rewrite app_nil_r.
    rewrite length_app. cbn.
    replace (length (heap st) + 1) with (length (heap st ++ [OLista []]))
      by (rewrite length_app; reflexivity).
    by rewrite list_lookup_middle. }
  split.
  - intros [|[k v] kv] Hfile; [by apply (Hvacio _ Hfile)|].
    apply (init_mal_formado path st _ Hfile).
    right. eexists. split; [reflexivity|]. by apply Exists_cons_hd.
  - intros [|c s] Hfile; [by apply (Hvacio _ Hfile)|].
    apply (init_mal_formado path st _ Hfile).
    right. eexists. split; [reflexivity|]. by apply Exists_cons_hd.
Qed.

Lemma construir_sin_lista_witness :
  (∃ g st', __init__ DEFAULT_DB_PATH (con_archivo (Documento (Py.JObj [])))
            = (Ok g, st') ∧ libro g st' = Some [])
  ∧ (∃ st', __init__ DEFAULT_DB_PATH (con_archivo (Documento (Py.JStr "[]")))
            = (Raise MalformedRecord, st')).
Proof.
  split.
  - apply (proj1 (construir_sin_lista DEFAULT_DB_PATH
                    (con_archivo (Documento (Py.JObj [])))) []).
    reflexivity.
  - apply (proj2 (construir_sin_lista DEFAULT_DB_PATH
                    (con_archivo (Documento (Py.JStr "[]")))) "[]").
    reflexivity.
Defined.

Lemma init_marco path st :
  archivos (__init__ path st).2 = archivos st
  ∧ hoy (__init__ path st).2 = hoy st
  ∧ heap st `prefix_of` heap (__init__ path st).2.
Proof.
  assert (∃ h', (__init__ path st).2 = con_heap (heap st ++ h') st)
    as [h' ->].
  { destruct (archivos st !! path) as [[d|bytes|l]|] eqn:Hfile.
    - rewrite (init_documento _ _ _ Hfile).
      unfold mbind at 1. unfold M_bind at 1. rewrite cargar_items_run.
      destruct (Py.iter d) as [items|]; [|by eexists].
      destruct (mapM Movimiento_kwargs items) as [args|]; [|by eexists].
      destruct (mapM anotado args) as [ms|]; [|by eexists].
      unfold mbind, M_bind, nuevo, mret, M_ret. cbn.
      eexists. rewrite <- !app_assoc. reflexivity.
    - rewrite init_run. unfold _cargar, exists_.
      unfold mbind at 1. unfold M_bind at 1. cbn [archivos con_heap db_path].
      rewrite Hfile. rewrite bool_decide_eq_true_2 by eauto.
      cbn [negb]. unfold mbind at 1. unfold M_bind at 1. unfold json_load.
      cbn [archivos con_heap]. rewrite Hfile.
      destruct (utf8_valido bytes); by eexists.
    - rewrite init_run. unfold _cargar, exists_.
      unfold mbind at 1. unfold M_bind at 1. cbn [archivos con_heap db_path].
      rewrite Hfile. rewrite bool_decide_eq_true_2 by eauto.
      cbn [negb]. unfold mbind at 1. unfold M_bind at 1. unfold json_load.
      cbn [archivos con_heap]. rewrite Hfile.
      destruct l; by eexists.
    - rewrite init_run. unfold _cargar, exists_.
      unfold mbind at 1. unfold M_bind at 1. cbn [archivos con_heap db_path].
      rewrite Hfile. rewrite bool_decide_eq_false_2 by (by intros [? ?]).
      unfold mbind, M_bind, nuevo, mret, M_ret. cbn.
      eexists. rewrite <- app_assoc. reflexivity. }
  cbn. split; [done|]. split; [done|]. by apply prefix_app_r.
Qed.

(** X7. Construction only reads: whatever the file holds and whatever the
    outcome, no file is created or changed, and every object that was in
    the heap is still there as it was. A load that fails leaves the file
    as it found it. *)
Theorem construir_solo_lee path st :
  archivos (__init__ path st).2 = archivos st
  ∧ heap st `prefix_of` heap (__init__ path st).2
  ∧ ∀ otro, libro otro (__init__ path st).2 = libro otro st
            ∨ libro otro st = None.
Proof.
  destruct (init_marco path st) as (Harch & _ & Hpre).
  split; [exact Harch|]. split; [exact Hpre|].
  intros otro. destruct (libro otro st) as [ms|] eqn:Hlibro; [left|by right].
  destruct Hpre as [h' Hh'].
  destruct (libro_refs _ _ _ Hlibro) as (refs & Hl & Hrefs).
  unfold libro. rewrite Hh', (deref_lista_app _ h' _ _ Hl). cbn.
  by apply mapM_deref_app.
Qed.

Lemma init_guarda path st ms :
  guarda path st ms →
  ∃ g st', __init__ path st = (Ok g, st')
           ∧ db_path g = path
           ∧ libro g st' = Some ms
           ∧ archivos st' = archivos st
           ∧ hoy st' = hoy st.
Proof.
  intros [Hfile | [-> Hno]].
  - apply (init_serializable _ _ _ Hfile).
  - destruct (init_sin_archivo path st Hno) as (g & st' & Hrun & ? & ? & ?).
    exists g, st'. split; [exact Hrun|]. repeat (split; [done|]).
    pose proof (init_marco path st) as (_ & Hhoy & _).
    by rewrite Hrun in Hhoy.
Qed.



(** ** Other objects and other stores *)

(** A successful call changes one object, the list of the store, and adds
    one: any other list object, and every instance, is as before. *)
Lemma agregar_marco self st ms e r st1 otra l ms' :
  libro self st = Some ms →
  e_tipo e ∈ TIPOS →
  (e_monto e <=? 0)%float = false →
  agregar self e st = (Ok r, st1) →
  otra ≠ movimientos self →
  deref_lista (heap st) otra = Some l →
  mapM (deref_movimiento (heap st)) l = Some ms' →
  deref_lista (heap st1) otra = Some l
  ∧ mapM (deref_movimiento (heap st1)) l = Some ms'.
Proof.
  intros Hlibro Ht Hx Hrun Hne Hl Hms'.
  destruct (libro_refs _ _ _ Hlibro) as (refs & Hself & Hrefs).
  rewrite (agregar_run self st refs ms e Hself Hrefs Ht Hx) in Hrun.
  injection Hrun as _ <-. cbn [heap].
  pose proof (deref_lista_lt _ _ _ Hl) as Hlt. split.
  - unfold deref_lista. rewrite list_lookup_insert_ne by done.
    rewrite lookup_app_l by done. exact Hl.
  - apply mapM_deref_frame; [done|]. by eapply refs_no_lista.
Qed.

(** X9. Two stores on one file: the one that writes last wins. When both
    are in memory and each adds an entry, the file ends up with the ledger
    of the second one to write, so the entry the first one added is on
    neither the file nor a store constructed from it afterwards. *)
Theorem ultimo_escritor_gana a b st msa msb ea eb :
  db_path a = db_path b →
  movimientos a ≠ movimientos b →
  libro a st = Some msa →
  libro b st = Some msb →
  e_tipo ea ∈ TIPOS → (e_monto ea <=? 0)%float = false →
  e_tipo eb ∈ TIPOS → (e_monto eb <=? 0)%float = false →
  ∃ ra st1 rb st2 g st3,
    agregar a ea st = (Ok ra, st1)
    ∧ agregar b eb st1 = (Ok rb, st2)
    ∧ libro a st2 = Some (msa ++ [registrada (hoy st) ea])
    ∧ libro b st2 = Some (msb ++ [registrada (hoy st) eb])
    ∧ archivos st2 !! db_path a
      = Some (Documento (serializable (msb ++ [registrada (hoy st) eb])))
    ∧ __init__ (db_path a) st2 = (Ok g, st3)
    ∧ libro g st3 = Some (msb ++ [registrada (hoy st) eb]).
Proof.
  intros Hpath Hne Ha Hb Hta Hxa Htb Hxb.
  destruct (agregar_ok a st msa ea Ha Hta Hxa)
    as (st1 & refsa & Hrun1 & Hla & Hrefsa & _ & _ & Hhoy).
  destruct (libro_refs _ _ _ Hb) as (refsb & Hlb & Hrefsb).
  destruct (agregar_marco a st msa ea _ st1 (movimientos b) refsb msb
              Ha Hta Hxa Hrun1 (not_eq_sym Hne) Hlb Hrefsb) as [Hlb1 Hrefsb1].
  assert (Hb1 : libro b st1 = Some msb).
  { unfold libro. rewrite Hlb1. exact Hrefsb1. }
  destruct (agregar_ok b st1 msb eb Hb1 Htb Hxb)
    as (st2 & refsb2 & Hrun2 & Hlb2 & Hrefsb2 & _ & Harch & _).
  rewrite Hhoy in Hrefsb2, Harch.
  assert (Ha1 : libro a st1 = Some (msa ++ [registrada (hoy st) ea])).
  { unfold libro. rewrite Hla. exact Hrefsa. }
  destruct (agregar_marco b st1 msb eb _ st2 (movimientos a) _ _
              Hb1 Htb Hxb Hrun2 Hne Hla Hrefsa) as [Hla2 Hrefsa2].
  assert (Hfile : archivos st2 !! db_path a
            = Some (Documento (serializable (msb ++ [registrada (hoy st) eb])))).
  { rewrite Harch, Hpath. apply lookup_insert_eq. }
  destruct (init_serializable _ _ _ Hfile) as (g & st3 & Hinit & _ & Hg & _).
  exists (length (heap st)), st1, (length (heap st1)), st2, g, st3.
  split; [exact Hrun1|]. split; [exact Hrun2|].
  split. { unfold libro. rewrite Hla2. exact Hrefsa2. }
  split. { unfold libro. rewrite Hlb2. exact Hrefsb2. }
  done.
Qed.

Lemma ultimo_escritor_gana_witness :
  ∃ ra st1 rb st2 g st3,
    agregar gestor_a entrada_a (dos_gestores libro_resumen) = (Ok ra, st1)
    ∧ agregar gestor_b entrada_b st1 = (Ok rb, st2)
    ∧ libro gestor_a st2
      = Some (libro_resumen
              ++ [registrada (hoy (dos_gestores libro_resumen)) entrada_a])
    ∧ libro gestor_b st2
      = Some (libro_resumen
              ++ [registrada (hoy (dos_gestores libro_resumen)) entrada_b])
    ∧ archivos st2 !! db_path gestor_a
      = Some (Documento (serializable
                (libro_resumen
                 ++ [registrada (hoy (dos_gestores libro_resumen)) entrada_b])))
    ∧ __init__ (db_path gestor_a) st2 = (Ok g, st3)
    ∧ libro g st3
      = Some (libro_resumen
              ++ [registrada (hoy (dos_gestores libro_resumen)) entrada_b]).
Proof.
  apply (ultimo_escritor_gana gestor_a gestor_b (dos_gestores libro_resumen)
           libro_resumen libro_resumen entrada_a entrada_b).
  - reflexivity.
  - discriminate.
  - reflexivity.
  - reflexivity.
  - exact gasto_en_TIPOS.
  - reflexivity.
  - exact ingreso_en_TIPOS.
  - reflexivity.
Defined.

(** X10. What [listar] returned is a snapshot of the sequence: an entry
    added to the store afterwards is in the ledger and not in the list
    returned before, which still has the entries it had. *)
Theorem listar_instantanea self st ms e :
  libro self st = Some ms →
  e_tipo e ∈ TIPOS →
  (e_monto e <=? 0)%float = false →
  ∃ lst st1 refs r st2,
    listar self st = (Ok lst, st1)
    ∧ deref_lista (heap st1) lst = Some refs
    ∧ agregar self e st1 = (Ok r, st2)
    ∧ deref_lista (heap st2) lst = Some refs
    ∧ mapM (deref_movimiento (heap st2)) refs = Some ms
    ∧ (r ∉ refs)
    ∧ libro self st2 = Some (ms ++ [registrada (hoy st) e]).
Proof.
  intros Hlibro Ht Hx.
  destruct (libro_refs _ _ _ Hlibro) as (refs & Hl & Hrefs).
  pose proof (deref_lista_lt _ _ _ Hl) as Hlt.
  set (st1 := con_heap (heap st ++ [OLista refs]) st).
  assert (Hlst : deref_lista (heap st1) (length (heap st)) = Some refs).
  { unfold deref_lista. cbn. by rewrite list_lookup_middle. }
  assert (Hrefs1 : mapM (deref_movimiento (heap st1)) refs = Some ms)
    by (by apply mapM_deref_app).
  assert (Hlibro1 : libro self st1 = Some ms).
  { unfold libro. cbn [heap st1 con_heap].
    rewrite (deref_lista_app _ _ _ _ Hl). exact Hrefs1. }
  destruct (agregar_ok self st1 ms e Hlibro1 Ht Hx)
    as (st2 & refs2 & Hrun & Hl2 & Hrefs2 & _).
  destruct (agregar_marco self st1 ms e _ st2 (length (heap st)) refs ms
              Hlibro1 Ht Hx Hrun ltac:(lia) Hlst Hrefs1) as [Hlst2 Hrefs'].
  exists (length (heap st)), st1, refs, (length (heap st1)), st2.
  split; [by apply listar_run|]. split; [exact Hlst|].
  split; [exact Hrun|]. split; [exact Hlst2|]. split; [exact Hrefs'|].
  split.
  - intros Hin. rewrite mapM_Some in Hrefs1.
    destruct (proj1 (list_elem_of_lookup _ _) Hin) as [i Hi].
    destruct (Forall2_lookup_l _ _ _ _ _ Hrefs1 Hi) as (m & _ & Hm).
    apply deref_movimiento_lt in Hm. lia.
  - unfold libro. rewrite Hl2. exact Hrefs2.
Qed.

Lemma listar_instantanea_witness :
  ∃ lst st1 refs r st2,
    listar gestor0 (estado_de libro_resumen) = (Ok lst, st1)
    ∧ deref_lista (heap st1) lst = Some refs
    ∧ agregar gestor0 entrada_a st1 = (Ok r, st2)
    ∧ deref_lista (heap st2) lst = Some refs
    ∧ mapM (deref_movimiento (heap st2)) refs = Some libro_resumen
    ∧ (r ∉ refs)
    ∧ libro gestor0 st2
      = Some (libro_resumen
              ++ [registrada (hoy (estado_de libro_resumen)) entrada_a]).
Proof.
  apply (listar_instantanea gestor0 (estado_de libro_resumen) libro_resumen
           entrada_a).
  - reflexivity.
  - exact gasto_en_TIPOS.
  - reflexivity.
Defined.

(** ** The summaries and the kinds *)

Lemma acumular_otros t ms : ∀ acc : dict,
  (∀ m, m ∈ ms → tipo m ≠ t) → fold_left (acumular t) ms acc = acc.
Proof.
  induction ms as [|m ms IH]; intros acc Hms; [reflexivity|].
  cbn [fold_left]. unfold acumular at 2.
  rewrite decide_True by (apply Hms; left).
  apply IH. intros m' Hm'. apply Hms. by right.
Qed.

(** X11. For a kind in {ingreso, gasto}, [resumen_por_categoria] returns
    the empty mapping, and no error, exactly when the ledger has no entry
    of that kind; an empty ledger is such a case. *)
Theorem resumen_por_categoria_vacio self st ms tipo_ :
  libro self st = Some ms →
  tipo_ ∈ TIPOS →
  ∃ r,
    resumen_por_categoria self tipo_ st = (Ok r, st)
    ∧ (r = [] ↔ ∀ m, m ∈ ms → tipo m ≠ tipo_).
Proof.
  intros Hlibro Ht.
  destruct (resumen_por_categoria_run self st ms tipo_ Hlibro Ht)
    as [Hrun _].
  eexists. split; [exact Hrun|].
  set (totales := fold_left (acumular tipo_) ms []).
  split.
  - intros Hr m Hm Htipo.
    assert (Hvacio : totales = []).
    { apply length_zero_iff_nil.
      rewrite <- (Permutation_length (sorted_perm totales)).
      erewrite <- length_fmap. rewrite Hr. reflexivity. }
    pose proof (totales_get tipo_ (categoria m) ms) as Hget.
    fold totales in Hget. rewrite Hvacio in Hget.
    assert (Hmf : m ∈ filter (λ m', tipo m' = tipo_
                                    ∧ categoria m' = categoria m) ms)
      by (by apply list_elem_of_filter).
    destruct (filter (λ m', tipo m' = tipo_ ∧ categoria m' = categoria m) ms);
      [by apply elem_of_nil in Hmf | discriminate Hget].
  - intros Hms. unfold totales. by rewrite (acumular_otros tipo_ ms [] Hms).
Qed.

Lemma resumen_por_categoria_vacio_witness :
  ∃ r,
    resumen_por_categoria gestor0 "ingreso" (estado_de libro_categorias)
    = (Ok r, estado_de libro_categorias)
    ∧ (r = [] ↔ ∀ m, m ∈ libro_categorias → tipo m ≠ "ingreso").
Proof.
  apply (resumen_por_categoria_vacio gestor0 (estado_de libro_categorias)
           libro_categorias "ingreso").
  - reflexivity.
  - exact ingreso_en_TIPOS.
Defined.

Lemma total_filter (P : Movimiento → Prop) `{∀ m, Decision (P m)} t ms :
  (∀ m, tipo m = t → P m) → total t (filter P ms) = total t ms.
Proof.
  intros HP. unfold total. generalize 0%float.
  induction ms as [|m ms IH]; intros acc; [reflexivity|].
  rewrite filter_cons. cbn [fold_left].
  destruct (decide (P m)) as [Hm|Hm]; cbn [fold_left]; [apply IH|].
  rewrite decide_False by (intros Heq; by apply Hm, HP). apply IH.
Qed.

Lemma acumular_filter (P : Movimiento → Prop) `{∀ m, Decision (P m)} t ms :
  (∀ m, tipo m = t → P m) →
  ∀ acc : dict,
    fold_left (acumular t) (filter P ms) acc = fold_left (acumular t) ms acc.
Proof.
  intros HP. induction ms as [|m ms IH]; intros acc; [reflexivity|].
  rewrite filter_cons. cbn [fold_left].
  destruct (decide (P m)) as [Hm|Hm]; cbn [fold_left]; [apply IH|].
  rewrite IH. f_equal. unfold acumular.
  by rewrite decide_True by (intros Heq; by apply Hm, HP).
Qed.

(** X12. Entries whose kind is neither ingreso nor gasto, which a file
    can hold because construction does not check the kind, count for
    nothing: [resumen] and [resumen_por_categoria] return on a ledger what
    they return on the ledger without those entries. *)
Theorem resumenes_ignoran_otros_tipos self st ms self' st' :
  libro self st = Some ms →
  libro self' st' = Some (filter (λ m, tipo m ∈ TIPOS) ms) →
  (resumen self st).1 = (resumen self' st').1
  ∧ ∀ tipo_,
      (resumen_por_categoria self tipo_ st).1
      = (resumen_por_categoria self' tipo_ st').1.
Proof.
  intros Hlibro Hlibro'. split.
  - rewrite (resumen_run _ _ _ Hlibro), (resumen_run _ _ _ Hlibro'). cbn.
    rewrite !(total_filter (λ m, tipo m ∈ TIPOS)); [done|..];
      intros m ->; [exact gasto_en_TIPOS | exact ingreso_en_TIPOS].
  - intros tipo_. destruct (decide (tipo_ ∈ TIPOS)) as [Ht|Ht].
    + destruct (resumen_por_categoria_run _ _ _ _ Hlibro Ht) as [-> _].
      destruct (resumen_por_categoria_run _ _ _ _ Hlibro' Ht) as [-> _].
      cbn. rewrite (acumular_filter (λ m, tipo m ∈ TIPOS)); [done|].
      by intros m ->.
    + unfold resumen_por_categoria. by rewrite bool_decide_eq_true_2.
Qed.

Lemma resumenes_ignoran_otros_tipos_witness :
  (resumen gestor0 (estado_de libro_editado)).1
  = (resumen gestor0
       (estado_de (filter (λ m, tipo m ∈ TIPOS) libro_editado))).1
  ∧ ∀ tipo_,
      (resumen_por_categoria gestor0 tipo_ (estado_de libro_editado)).1
      = (resumen_por_categoria gestor0 tipo_
           (estado_de (filter (λ m, tipo m ∈ TIPOS) libro_editado))).1.
Proof.
  apply (resumenes_ignoran_otros_tipos gestor0 (estado_de libro_editado)
           libro_editado gestor0).
  - reflexivity.
  - reflexivity.
Defined.

(** * The command line *)

Lemma P_bind_Ok {A B} (m : P A) (k : A → P B) s a s' :
  m s = (Ok a, s') → (m ≫= k) s = k a s'.
Proof. intros H. unfold mbind, P_bind. by rewrite H. Qed.

Lemma elevar_Ok {A} (m : M A) st out a st' :
  m st = (Ok a, st') → elevar m (st, out) = (Ok a, (st', out)).
Proof. intros H. unfold elevar. cbn. by rewrite H. Qed.

Lemma elevar_Raise {A} (m : M A) st out e st' :
  m st = (Raise e, st') → elevar m (st, out) = (Raise e, (st', out)).
Proof. intros H. unfold elevar. cbn. by rewrite H. Qed.

Lemma P_bind_Raise {A B} (m : P A) (k : A → P B) s e s' :
  m s = (Raise e, s') → (m ≫= k) s = (Raise e, s').
Proof. intros H. unfold mbind, P_bind. by rewrite H. Qed.

(** The loop of [listar]: one line per instance, in order. *)
Lemma imprimir_movimientos refs : ∀ ms st out,
  mapM (deref_movimiento (heap st)) refs = Some ms →
  mapM (λ r, m ← elevar (leer_movimiento r); print (linea_movimiento m))
    refs (st, out)
  = (Ok ((λ _, ()) <$> refs), (st, out ++ (linea_movimiento <$> ms))).
Proof.
  induction refs as [|r refs IH]; intros ms st out Hms.
  - injection Hms as <-. cbn. by rewrite app_nil_r.
  - apply mapM_Some in Hms.
    apply Forall2_cons_inv_l in Hms as (m & ms' & Hm & Hms' & ->).
    apply mapM_Some in Hms'. cbn [mapM].
    erewrite P_bind_Ok; last first.
    { erewrite P_bind_Ok; last first.
      { apply elevar_Ok. rewrite leer_movimiento_run, Hm. reflexivity. }
      reflexivity. }
    erewrite P_bind_Ok by (by apply IH).
    cbn. by rewrite <- app_assoc.
Qed.

(** The loop of [categorias]: one line per category. *)
Lemma imprimir_categorias (r : dict) : ∀ st out,
  mapM (λ p, print (linea_categoria p)) r (st, out)
  = (Ok ((λ _, ()) <$> r), (st, out ++ (linea_categoria <$> r))).
Proof.
  induction r as [|p r IH]; intros st out.
  - cbn. by rewrite app_nil_r.
  - cbn [mapM]. erewrite P_bind_Ok by reflexivity.
    erewrite P_bind_Ok by apply IH.
    cbn. by rewrite <- app_assoc.
Qed.

Lemma main_listar_run args st out ms :
  comando args = CmdListar →
  guarda (db args) st ms →
  ∃ st',
    main args (st, out)
    = (Ok (),
       (st', out ++ match ms with
                    | [] => [sin_movimientos]
                    | _ :: _ => titulo_movimientos :: (linea_movimiento <$> ms)
                    end))
    ∧ archivos st' = archivos st.
Proof.
  intros Hcmd Hguarda.
  destruct (init_guarda _ _ _ Hguarda)
    as (g & st1 & Hinit & _ & Hlibro & Harch & _).
  destruct (libro_refs _ _ _ Hlibro) as (refs & Hl & Hrefs).
  unfold main. erewrite P_bind_Ok by (apply elevar_Ok, Hinit).
  rewrite Hcmd.
  erewrite P_bind_Ok by (apply elevar_Ok, listar_run, Hl).
  erewrite P_bind_Ok; last first.
  { apply elevar_Ok. rewrite leer_lista_run. unfold deref_lista.
    cbn [heap con_heap]. rewrite list_lookup_middle by done. reflexivity. }
  exists (con_heap (heap st1 ++ [OLista refs]) st1). split; [|exact Harch].
  destruct refs as [|r refs].
  - injection Hrefs as <-. reflexivity.
  - assert (Hms : ∃ m ms', ms = m :: ms').
    { apply mapM_Some, Forall2_cons_inv_l in Hrefs as (m & ms' & _ & _ & ->).
      eauto. }
    destruct Hms as (m & ms' & ->).
    erewrite P_bind_Ok by reflexivity.
    erewrite P_bind_Ok; last first.
    { apply imprimir_movimientos. cbn [heap con_heap].
      apply mapM_deref_app. exact Hrefs. }
    cbn. by rewrite <- app_assoc.
Qed.



(** X14. The subcommand resumen prints four lines: the title, then the
    three values of the mapping [resumen] returns on the store it has
    loaded, those under ingresos, gastos and balance in this order, each
    written with two decimals. No file is created or changed. Where there
    is no file the three amounts read 0.00, and on a file that holds
    ingreso 100, gasto 40, gasto 10 they read 100.00, 50.00 and 50.00. *)
Theorem main_resumen args st out ms :
  comando args = CmdResumen →
  guarda (db args) st ms →
  ∃ g st' i ga b,
    __init__ (db args) st = (Ok g, st')
    ∧ resumen g st'
      = (Ok [("ingresos", i); ("gastos", ga); ("balance", b)], st')
    ∧ main args (st, out)
      = (Ok (),
         (st', out ++ [titulo_resumen; linea_ingresos i; linea_gastos ga;
                       linea_balance b]))
    ∧ archivos st' = archivos st
    ∧ (ms = [] →
       [linea_ingresos i; linea_gastos ga; linea_balance b]
       = [texto_de "Ingresos: $0.00"; texto_de "Gastos:   $0.00";
          texto_de "Balance:  $0.00"])
    ∧ (ms = libro_resumen →
       [linea_ingresos i; linea_gastos ga; linea_balance b]
       = [texto_de "Ingresos: $100.00"; texto_de "Gastos:   $50.00";
          texto_de "Balance:  $50.00"]).
Proof.
  intros Hcmd Hguarda.
  destruct (init_guarda _ _ _ Hguarda)
    as (g & st1 & Hinit & _ & Hlibro & Harch & _).
  pose proof (resumen_run g st1 ms Hlibro) as Hres.
  eexists g, st1, _, _, _. split; [exact Hinit|]. split; [exact Hres|].
  split; [|split; [exact Harch|split; by intros ->]].
  unfold main. erewrite P_bind_Ok by (apply elevar_Ok, Hinit).
  rewrite Hcmd.
  erewrite P_bind_Ok by (apply elevar_Ok, Hres).
  erewrite P_bind_Ok by reflexivity.
  erewrite P_bind_Ok by reflexivity.
  erewrite P_bind_Ok by reflexivity.
  erewrite P_bind_Ok by reflexivity.
  erewrite P_bind_Ok by reflexivity.
  erewrite P_bind_Ok by reflexivity.
  unfold print. cbn. by rewrite <- !app_assoc.
Qed.

Lemma main_resumen_witness :
  ∃ g st' i ga b,
    __init__ DEFAULT_DB_PATH
      (con_archivo (Documento (serializable libro_resumen))) = (Ok g, st')
    ∧ resumen g st'
      = (Ok [("ingresos", i); ("gastos", ga); ("balance", b)], st')
    ∧ main {| db := DEFAULT_DB_PATH; comando := CmdResumen |}
        (con_archivo (Documento (serializable libro_resumen)), [])
      = (Ok (),
         (st', [] ++ [titulo_resumen; linea_ingresos i; linea_gastos ga;
                      linea_balance b]))
    ∧ archivos st'
      = archivos (con_archivo (Documento (serializable libro_resumen)))
    ∧ (libro_resumen = [] →
       [linea_ingresos i; linea_gastos ga; linea_balance b]
       = [texto_de "Ingresos: $0.00"; texto_de "Gastos:   $0.00";
          texto_de "Balance:  $0.00"])
    ∧ (libro_resumen = libro_resumen →
       [linea_ingresos i; linea_gastos ga; linea_balance b]
       = [texto_de "Ingresos: $100.00"; texto_de "Gastos:   $50.00";
          texto_de "Balance:  $50.00"]).
Proof.
  apply (main_resumen {| db := DEFAULT_DB_PATH; comando := CmdResumen |}
           (con_archivo (Documento (serializable libro_resumen))) []
           libro_resumen).
  - reflexivity.
  - left. reflexivity.
Defined.

Lemma main_categorias_run args st out g st1 (r : dict) tipo_ :
  comando args = CmdCategorias tipo_ →
  __init__ (db args) st = (Ok g, st1) →
  resumen_por_categoria g tipo_ st1 = (Ok r, st1) →
  main args (st, out)
  = (Ok (),
     (st1, out ++ titulo_categorias tipo_
                  :: match r with
                     | [] => [sin_datos]
                     | _ :: _ => linea_categoria <$> r
                     end)).
Proof.
  intros Hcmd Hinit Hrun.
  unfold main. erewrite P_bind_Ok by (apply elevar_Ok, Hinit).
  rewrite Hcmd.
  erewrite P_bind_Ok by (apply elevar_Ok, Hrun).
  erewrite P_bind_Ok by reflexivity.
  destruct r as [|p r'].
  - erewrite P_bind_Ok by reflexivity.
    erewrite P_bind_Ok by reflexivity.
    unfold mret, P_ret. cbn [fst snd]. by rewrite <- app_assoc.
  - erewrite P_bind_Ok by reflexivity.
    erewrite P_bind_Ok by apply imprimir_categorias.
    unfold mret, P_ret. cbn [fst snd]. by rewrite <- app_assoc.
Qed.



Lemma main_agregar_run args st out ms e :
  comando args
  = CmdAgregar (e_tipo e) (e_monto e) (e_categoria e) (e_descripcion e)
      (e_fecha e) →
  guarda (db args) st ms →
  e_tipo e ∈ TIPOS →
  (e_monto e <=? 0)%float = false →
  ∃ st',
    main args (st, out)
    = (Ok (), (st', out ++ [linea_registrado (registrada (hoy st) e)]))
    ∧ guarda (db args) st' (ms ++ [registrada (hoy st) e])
    ∧ (∀ p, p ≠ db args → archivos st' !! p = archivos st !! p).
Proof.
  intros Hcmd Hguarda Ht Hx.
  destruct (init_guarda _ _ _ Hguarda)
    as (g & st1 & Hinit & Hpath & Hlibro & Harch & Hhoy).
  destruct (agregar_ok g st1 ms e Hlibro Ht Hx)
    as (st2 & refs & Hrun & _ & _ & Hm & Harch2 & _).
  rewrite Hhoy, Hpath, Harch in *.
  exists st2. split; [|split].
  - unfold main. erewrite P_bind_Ok by (apply elevar_Ok, Hinit).
    rewrite Hcmd.
    erewrite P_bind_Ok by (apply elevar_Ok, Hrun).
    erewrite P_bind_Ok; last first.
    { apply elevar_Ok. rewrite leer_movimiento_run, Hm. reflexivity. }
    reflexivity.
  - left. rewrite Harch2. apply lookup_insert_eq.
  - intros p Hp. rewrite Harch2. by apply lookup_insert_ne.
Qed.



(** X17. The subcommand agregar with an amount of zero or below, which
    the parser lets through as a number, ends in the uncaught
    [InvalidAmount]: nothing is printed and no file is created or
    changed. *)
Theorem main_agregar_rechaza args st out ms t x c d f :
  comando args = CmdAgregar t x c d f →
  guarda (db args) st ms →
  t ∈ TIPOS →
  (x <=? 0)%float = true →
  ∃ st',
    main args (st, out) = (Raise InvalidAmount, (st', out))
    ∧ archivos st' = archivos st.
Proof.
  intros Hcmd Hguarda Ht Hx.
  destruct (init_guarda _ _ _ Hguarda)
    as (g & st1 & Hinit & _ & _ & Harch & _).
  exists st1. split; [|exact Harch].
  unfold main. erewrite P_bind_Ok by (apply elevar_Ok, Hinit).
  rewrite Hcmd. apply P_bind_Raise, elevar_Raise.
  unfold agregar_movimiento.
  rewrite bool_decide_eq_false_2 by (by intros []). by rewrite Hx.
Qed.

Lemma main_agregar_rechaza_witness :
  ∃ st',
    main {| db := DEFAULT_DB_PATH;
            comando := CmdAgregar "gasto" (-5) "cafe" "" None |}
      (estado_de libro_resumen, [])
    = (Raise InvalidAmount, (st', []))
    ∧ archivos st' = archivos (estado_de libro_resumen).
Proof.
  apply (main_agregar_rechaza
           {| db := DEFAULT_DB_PATH;
              comando := CmdAgregar "gasto" (-5) "cafe" "" None |}
           (estado_de libro_resumen) [] libro_resumen "gasto" (-5) "cafe" ""
           None).
  - reflexivity.
  - left. reflexivity.
  - exact gasto_en_TIPOS.
  - reflexivity.
Defined.



(** ** What the subcommands never do *)

Lemma P_bind_archivos {A B} (m : P A) (k : A → P B) :
  (∀ s, archivos (m s).2.1 = archivos s.1) →
  (∀ a s, archivos (k a s).2.1 = archivos s.1) →
  ∀ s, archivos ((m ≫= k) s).2.1 = archivos s.1.
Proof.
  intros Hm Hk s. unfold mbind, P_bind. specialize (Hm s).
  destruct (m s) as [[a|e|x] s']; [|done..].
  cbn in Hm. by rewrite Hk.
Qed.

Lemma elevar_archivos {A} (m : M A) :
  (∀ st, archivos (m st).2 = archivos st) →
  ∀ s, archivos (elevar m s).2.1 = archivos s.1.
Proof. intros Hm s. unfold elevar. cbn. apply Hm. Qed.

Lemma mapM_archivos {A B} (f : A → P B) l :
  (∀ a s, archivos (f a s).2.1 = archivos s.1) →
  ∀ s, archivos (mapM f l s).2.1 = archivos s.1.
Proof.
  intros Hf. induction l as [|a l IH]; [done|]. cbn [mapM].
  apply P_bind_archivos; [apply Hf|]. intros b.
  apply P_bind_archivos; [apply IH|done].
Qed.

Lemma leer_lista_estado r st : (leer_lista r st).2 = st.
Proof. rewrite leer_lista_run. by destruct (deref_lista (heap st) r). Qed.

Lemma leer_movimiento_estado r st : (leer_movimiento r st).2 = st.
Proof.
  rewrite leer_movimiento_run. by destruct (deref_movimiento (heap st) r).
Qed.

Lemma getitem_archivos r k s : archivos (getitem r k s).2.1 = archivos s.1.
Proof. unfold getitem. by destruct (Py.dict_get r k). Qed.

(** X19. The subcommands resumen, categorias and listar never write:
    whatever the file holds, whatever their arguments and whatever the
    outcome, an error included, every file is afterwards as it was, and
    none is created. *)
Theorem main_consultas_no_escriben args s :
  solo_consulta (comando args) = true →
  archivos (main args s).2.1 = archivos s.1.
Proof.
  intros Hcmd. unfold main.
  apply P_bind_archivos.
  { apply elevar_archivos. intros st. apply init_marco. }
  intros g. destruct (comando args) as [t x c d f| |t|]; [discriminate| | |].
  - apply P_bind_archivos.
    { apply elevar_archivos. intros st. by rewrite resumen_estado. }
    intros r. apply P_bind_archivos; [done|]. intros _.
    apply P_bind_archivos; [apply getitem_archivos|]. intros i.
    apply P_bind_archivos; [done|]. intros _.
    apply P_bind_archivos; [apply getitem_archivos|]. intros ga.
    apply P_bind_archivos; [done|]. intros _.
    apply P_bind_archivos; [apply getitem_archivos|]. done.
  - apply P_bind_archivos.
    { apply elevar_archivos. intros st.
      by rewrite resumen_por_categoria_estado. }
    intros r. apply P_bind_archivos; [done|]. intros _.
    apply P_bind_archivos; [by destruct r|]. intros _.
    apply P_bind_archivos; [by apply mapM_archivos|]. done.
  - apply P_bind_archivos.
    { apply elevar_archivos. intros st. rewrite listar_estado.
      by destruct (deref_lista (heap st) (movimientos g)). }
    intros l. apply P_bind_archivos.
    { apply elevar_archivos. intros st. by rewrite leer_lista_estado. }
    intros [|r refs]; [done|].
    apply P_bind_archivos; [done|]. intros _.
    apply P_bind_archivos; [|done].
    apply mapM_archivos. intros r' s'.
    apply P_bind_archivos; [|done].
    apply elevar_archivos. intros st. by rewrite leer_movimiento_estado.
Qed.

Lemma main_consultas_no_escriben_witness :
  archivos (main {| db := DEFAULT_DB_PATH; comando := CmdListar |}
              (con_archivo (Ilegible "{oops"), [])).2.1
  = archivos (con_archivo (Ilegible "{oops")).
Proof.
  apply (main_consultas_no_escriben
           {| db := DEFAULT_DB_PATH; comando := CmdListar |}
           (con_archivo (Ilegible "{oops"), [])).
  reflexivity.
Defined.

Lemma init_ilegible path st bytes :
  archivos st !! path = Some (Ilegible bytes) →
  __init__ path st
  = (Raise (if utf8_valido bytes then JSONDecodeError else UnicodeDecodeError),
     con_heap (heap st ++ [OLista []]) st).
Proof.
  intros Hfile. rewrite init_run. unfold _cargar, exists_.
  unfold mbind at 1. unfold M_bind at 1. cbn [archivos con_heap db_path].
  rewrite Hfile. rewrite bool_decide_eq_true_2 by eauto.
  cbn [negb]. unfold mbind at 1. unfold M_bind at 1. unfold json_load.
  cbn [archivos con_heap]. rewrite Hfile. by destruct (utf8_valido bytes).
Qed.



(** ** The store over every [str] *)

Lemma blancos_spec c : Ancho.isspace c = true ↔ c ∈ Ancho.BLANCOS.
Proof.
  unfold Ancho.isspace, Ancho.BLANCOS, entre. split.
  - rewrite !orb_true_iff, !andb_true_iff, !N.leb_le, !N.eqb_eq.
    intros H.
    assert (c = 9 ∨ c = 10 ∨ c = 11 ∨ c = 12 ∨ c = 13 ∨ c = 28 ∨ c = 29
            ∨ c = 30 ∨ c = 31 ∨ c = 32 ∨ c = 133 ∨ c = 160 ∨ c = 5760
            ∨ c = 8192 ∨ c = 8193 ∨ c = 8194 ∨ c = 8195 ∨ c = 8196
            ∨ c = 8197 ∨ c = 8198 ∨ c = 8199 ∨ c = 8200 ∨ c = 8201
            ∨ c = 8202 ∨ c = 8232 ∨ c = 8233 ∨ c = 8239 ∨ c = 8287
            ∨ c = 12288)%N as Hc by lia.
    clear H. rewrite !elem_of_cons. tauto.
  - intros H. repeat (apply elem_of_cons in H as [->|H]; [reflexivity|]).
    by apply elem_of_nil in H.
Qed.

Lemma lstrip_recorta s :
  ∃ pre, s = pre ++ Ancho.lstrip s
         ∧ forallb Ancho.isspace pre = true
         ∧ ∀ c, head (Ancho.lstrip s) = Some c → Ancho.isspace c = false.
Proof.
  induction s as [|c s (pre & Heq & Hpre & Hhead)]; cbn [Ancho.lstrip].
  - by exists [].
  - destruct (Ancho.isspace c) eqn:Hc.
    + exists (c :: pre). cbn. rewrite Hc, Hpre. split; [by f_equal|done].
    + exists []. cbn. split; [done|]. split; [done|]. by intros ? [= <-].
Qed.

Lemma rstrip_recorta s :
  ∃ post, s = Ancho.rstrip s ++ post
          ∧ forallb Ancho.isspace post = true
          ∧ ∀ c, last (Ancho.rstrip s) = Some c → Ancho.isspace c = false.
Proof.
  induction s as [|c s (post & Heq & Hpost & Hlast)]; cbn [Ancho.rstrip].
  - by exists [].
  - destruct (Ancho.rstrip s) as [|c' r'] eqn:Hr.
    + cbn in Heq. destruct (Ancho.isspace c) eqn:Hc.
      * exists (c :: post). cbn. rewrite Hc, Hpost. split; [by f_equal|done].
      * exists post. split; [by cbn; f_equal|]. split; [done|].
        cbn. by intros ? [= <-].
    + exists post. split; [by cbn; f_equal|]. split; [done|].
      intros c0 Hc0. apply Hlast. exact Hc0.
Qed.

Lemma rstrip_cabeza c r :
  head (Ancho.rstrip (c :: r)) = None ∨ head (Ancho.rstrip (c :: r)) = Some c.
Proof.
  cbn. destruct (Ancho.rstrip r); [destruct (Ancho.isspace c)|]; auto.
Qed.

(** [strip] removes white space at both ends, and only that. *)
Lemma strip_recortada s : Ancho.recortada s (Ancho.strip s).
Proof.
  destruct (lstrip_recorta s) as (pre & Hs & Hpre & Hhead).
  destruct (rstrip_recorta (Ancho.lstrip s)) as (post & Ht & Hpost & Hlast).
  exists pre, post. unfold Ancho.strip.
  split; [by rewrite <- Ht|]. split; [done|]. split; [done|].
  split; [|exact Hlast].
  destruct (Ancho.lstrip s) as [|c r]; [by intros c|].
  intros c0 Hc0. destruct (rstrip_cabeza c r) as [H|H];
    rewrite H in Hc0; [done|].
  injection Hc0 as <-. by apply Hhead.
Qed.

(** What is removed is all there is to remove: the stripped string is
    empty exactly when the string is white space throughout. *)
Lemma strip_vacia s :
  Ancho.strip s = [] ↔ forallb Ancho.isspace s = true.
Proof.
  split.
  - intros H. destruct (strip_recortada s) as (pre & post & Hs & Hpre & Hpost & _).
    rewrite H in Hs. rewrite Hs, forallb_app, Hpre. exact Hpost.
  - intros H. unfold Ancho.strip.
    replace (Ancho.lstrip s) with (@nil N); [reflexivity|].
    induction s as [|c s IH]; [reflexivity|].
    cbn in H. apply andb_true_iff in H as [Hc Hs].
    cbn. rewrite Hc. by apply IH.
Qed.

Lemma codificable_texto_de s : Ancho.codificable (texto_de s) = true.
Proof.
  unfold texto_de.
  induction (String.list_ascii_of_string s) as [|c l IH]; [reflexivity|].
  unfold Ancho.codificable in *. cbn [fmap list_fmap forallb].
  rewrite IH, andb_true_r. unfold Ancho.sustituto, entre.
  pose proof (N_ascii_bounded c) as Hc.
  replace (55296 <=? N_of_ascii c)%N with false; [reflexivity|].
  symmetry. apply N.leb_gt. lia.
Qed.

Lemma TIPOS_ancho t :
  t ∈ Ancho.TIPOS ↔ t = texto_de "ingreso" ∨ t = texto_de "gasto".
Proof. unfold Ancho.TIPOS. set_solver. Qed.

Lemma codificable_mov_asdict m :
  Ancho.json_codificable (Ancho.JObj (Ancho.asdict m))
  = Ancho.codificable_mov m.
Proof.
  unfold Ancho.asdict, Ancho.codificable_mov.
  cbn [Ancho.json_codificable forallb fst snd].
  rewrite !codificable_texto_de. cbn [andb]. by rewrite !andb_true_r, !andb_assoc.
Qed.

Lemma json_codificable_serializable ms :
  Ancho.json_codificable (Ancho.serializable ms)
  = forallb Ancho.codificable_mov ms.
Proof.
  unfold Ancho.serializable.
  change (forallb Ancho.json_codificable
            ((λ m, Ancho.JObj (Ancho.asdict m)) <$> ms)
          = forallb Ancho.codificable_mov ms).
  induction ms as [|m ms IH]; [reflexivity|].
  cbn [fmap list_fmap forallb]. by rewrite codificable_mov_asdict, IH.
Qed.

(** A call that passes both checks: the entry is made and appended; the
    write goes through when every string of the ledger encodes, and
    raises, leaving the beginning of the text in the file, when one does
    not. *)
Lemma agregar_ancho_run self st tipo_ monto_ categoria_ descripcion_ fecha_ :
  tipo_ ∈ Ancho.TIPOS →
  (monto_ <=? 0)%float = false →
  let m := Ancho.registrada (Ancho.hoy st) tipo_ monto_ categoria_
             descripcion_ fecha_ in
  let ms := Ancho.movimientos st ++ [m] in
  Ancho.agregar_movimiento self tipo_ monto_ categoria_ descripcion_ fecha_ st
  = if forallb Ancho.codificable_mov ms then
      (Ok m,
       {| Ancho.movimientos := ms;
          Ancho.archivos :=
            <[Ancho.db_path self := Ancho.Documento (Ancho.serializable ms)]>
              (Ancho.archivos st);
          Ancho.hoy := Ancho.hoy st |})
    else
      (Raise UnicodeEncodeError,
       {| Ancho.movimientos := ms;
          Ancho.archivos :=
            <[Ancho.db_path self := Ancho.Truncado (Ancho.serializable ms)]>
              (Ancho.archivos st);
          Ancho.hoy := Ancho.hoy st |}).
Proof.
  intros Ht Hx m ms. unfold Ancho.agregar_movimiento.
  rewrite bool_decide_eq_false_2 by (by intros []). rewrite Hx.
  assert (Hf : Ancho.fecha_o_hoy fecha_ st = (Ok (Ancho.fecha m), st)).
  { subst m. by destruct fecha_ as [[|c f]|]. }
  unfold mbind at 1. unfold Ancho.M_bind at 1. rewrite Hf.
  assert (Hm : {| Ancho.tipo := tipo_; Ancho.monto := monto_;
                  Ancho.categoria :=
                    Ancho.str_or (Ancho.strip categoria_) (texto_de "general");
                  Ancho.descripcion := Ancho.strip descripcion_;
                  Ancho.fecha := Ancho.fecha m |} = m).
  { subst m. unfold Ancho.registrada. cbn [Ancho.fecha].
    by destruct (Ancho.strip categoria_). }
  rewrite Hm.
  unfold mbind, Ancho.M_bind, Ancho.list_append, Ancho._guardar,
    Ancho.entradas, Ancho.json_dump, mret, Ancho.M_ret.
  unfold mbind, Ancho.M_bind.
  cbn [Ancho.movimientos Ancho.archivos Ancho.hoy].
  rewrite json_codificable_serializable. fold ms.
  by destruct (forallb Ancho.codificable_mov ms).
Qed.

Lemma agregar_ancho_invalido self st tipo_ monto_ categoria_ descripcion_ fecha_ :
  Ancho.agregar_movimiento self tipo_ monto_ categoria_ descripcion_ fecha_ st
  = (if bool_decide (tipo_ ∉ Ancho.TIPOS) then (Raise InvalidKind, st)
     else if (monto_ <=? 0)%float then (Raise InvalidAmount, st)
     else Ancho.agregar_movimiento self tipo_ monto_ categoria_ descripcion_
            fecha_ st).
Proof.
  unfold Ancho.agregar_movimiento.
  destruct (bool_decide (tipo_ ∉ Ancho.TIPOS)); [reflexivity|].
  by destruct (monto_ <=? 0)%float.
Qed.

Lemma codificable_recortada s t :
  Ancho.recortada s t → Ancho.codificable s = true → Ancho.codificable t = true.
Proof.
  intros (pre & post & -> & _) H. unfold Ancho.codificable in *.
  rewrite !forallb_app in H.
  by apply andb_true_iff in H as [_ [H _]%andb_true_iff].
Qed.

(** The entry of a call whose strings encode does encode. *)
Lemma codificable_registrada d tipo_ monto_ categoria_ descripcion_ fecha_ :
  tipo_ ∈ Ancho.TIPOS →
  Ancho.codificable categoria_ = true →
  Ancho.codificable descripcion_ = true →
  (∀ f, fecha_ = Some f → Ancho.codificable f = true) →
  Ancho.codificable_mov
    (Ancho.registrada d tipo_ monto_ categoria_ descripcion_ fecha_) = true.
Proof.
  intros Ht Hc Hd Hf. unfold Ancho.codificable_mov, Ancho.registrada.
  cbn [Ancho.tipo Ancho.categoria Ancho.descripcion Ancho.fecha].
  rewrite !andb_true_iff. repeat split.
  - apply TIPOS_ancho in Ht as [-> | ->]; apply codificable_texto_de.
  - pose proof (codificable_recortada _ _ (strip_recortada categoria_) Hc).
    destruct (Ancho.strip categoria_); [apply codificable_texto_de | done].
  - exact (codificable_recortada _ _ (strip_recortada descripcion_) Hd).
  - destruct fecha_ as [[|c f]|]; try apply codificable_texto_de.
    by apply Hf.
Qed.








